(** * Instant Remodel: style-generation orchestration and resilient requests

    A shallow embedding of the generation core of the application:
    - the serverless proxy, in its two deployments (the Vercel function
      [api/generate.ts] and the Netlify function): [extractStyle],
      [getFallbackPrompt], [processGeminiResponse], [callGeminiWithRetry],
      [generateStyleImage] and the HTTP [handler];
    - the browser service [services/geminiService.ts];
    - the round scheduler and the regeneration handler of [App.tsx].

    JavaScript strings are modelled by [string]; one [ascii] stands for one
    UTF-16 code unit below 256 (every text the code inspects is ASCII).
    Asynchronous code is modelled by a state-and-exception monad over the
    trace of observable events (upstream calls, timer waits, proxy
    requests); the interleaving of the two round workers is a labelled
    step relation. *)

From Stdlib Require Import Ascii String NArith Lia.
From stdpp Require Import base option list strings gmap pretty.

(** ** JavaScript string primitives *)

Module Js.

(** The double quote, for texts that embed one. *)
Definition dq : string := String "034"%char EmptyString.

(** [s.startsWith(p)] *)
Definition startsWith (s p : string) : bool := String.prefix p s.

(** [s.includes(sub)]: [sub] occurs at some offset of [s]. *)
Fixpoint includes (s sub : string) : bool :=
  String.prefix sub s ||
  match s with
  | EmptyString => false
  | String _ s' => includes s' sub
  end.

(** Removes the prefix [p] from [s], when [s] starts with it. *)
Fixpoint stripPrefix (p s : string) : option string :=
  match p with
  | EmptyString => Some s
  | String a p' =>
      match s with
      | EmptyString => None
      | String b s' => if Ascii.eqb a b then stripPrefix p' s' else None
      end
  end.

Definition between (lo hi : nat) (c : ascii) : bool :=
  let n := nat_of_ascii c in (lo <=? n)%nat && (n <=? hi)%nat.

(** The regular-expression class [\w]: [A-Za-z0-9_]. *)
Definition isWordChar (c : ascii) : bool :=
  between 65 90 c || between 97 122 c || between 48 57 c
  || (nat_of_ascii c =? 95)%nat.

(** Line terminators, which [.] does not match (LF and CR; the other two,
    U+2028 and U+2029, lie outside the modelled code units). *)
Definition isLineTerminator (c : ascii) : bool :=
  (nat_of_ascii c =? 10)%nat || (nat_of_ascii c =? 13)%nat.

(** White space removed by [trim()]: TAB, LF, VT, FF, CR, SP and NBSP. *)
Definition isWhiteSpace (c : ascii) : bool :=
  between 9 13 c || (nat_of_ascii c =? 32)%nat || (nat_of_ascii c =? 160)%nat.

Fixpoint all (p : ascii -> bool) (s : string) : bool :=
  match s with
  | EmptyString => true
  | String c s' => p c && all p s'
  end.

(** The longest prefix of [s] made of characters satisfying [p], and the
    rest of [s]. *)
Fixpoint span (p : ascii -> bool) (s : string) : string * string :=
  match s with
  | EmptyString => (EmptyString, EmptyString)
  | String c s' =>
      if p c then let (w, r) := span p s' in (String c w, r)
      else (EmptyString, s)
  end.

(** [s.trim().length === 0] *)
Definition isBlank (s : string) : bool := all isWhiteSpace s.

(** Truthiness of a possibly undefined string: defined and not empty. *)
Definition truthy (o : option string) : bool :=
  match o with
  | Some (String _ _) => true
  | _ => false
  end.

(** [a || b] on possibly undefined strings. *)
Definition or (a b : option string) : option string :=
  if truthy a then a else b.

(** A possibly undefined string inside a template literal. *)
Definition tmpl (o : option string) : string :=
  match o with
  | Some s => s
  | None => "undefined"
  end.

(** A thrown value: an [Error] with its message, or any other value, of
    which the code only reads [JSON.stringify(v)] and [String(v)]. *)
Inductive Thrown : Type :=
| Error (message : string)
| Value (json str : string).

(** [e instanceof Error ? e.message : JSON.stringify(e)] *)
Definition messageOrJson (e : Thrown) : string :=
  match e with
  | Error m => m
  | Value j _ => j
  end.

(** [e instanceof Error ? e.message : String(e)] *)
Definition messageOrString (e : Thrown) : string :=
  match e with
  | Error m => m
  | Value _ s => s
  end.

(** Optional chaining [o?.f], also for [o?.[0]] and [o?.find(p)]. *)
Definition chain {A B} (o : option A) (f : A -> option B) : option B :=
  match o with
  | Some a => f a
  | None => None
  end.

End Js.

Notation "o ?. f" := (Js.chain o f) (at level 25, left associativity).

(** ** Requests, responses and the upstream client *)

(** A part of a request: [{ inlineData: { mimeType, data } }] or [{ text }]. *)
Inductive Part : Type :=
| InlinePart (mimeType data : string)
| TextPart (text : string).

(** The response of [generateContent], as far as the proxy reads it. *)
Record InlineData : Type := mkInlineData {
  mimeType : option string;
  data : option string
}.

Record ContentPart : Type := mkContentPart {
  inlineData : option InlineData;
  text : option string
}.

Record Content : Type := mkContent {
  parts : option (list ContentPart)
}.

Record Candidate : Type := mkCandidate {
  content : option Content
}.

Record Response : Type := mkResponse {
  candidates : option (list Candidate);
  (** [response.response?.candidates] *)
  inner_candidates : option (list Candidate);
  (** the [response.text] accessor *)
  response_text : option string
}.

(** The upstream client [ai.models.generateContent]: what the [n]-th call
    (counted from 0) answers to a request. *)
Definition Upstream : Type := nat -> list Part -> Response + Js.Thrown.

(** ** Effects: the trace of observable events *)

Inductive Event : Type :=
| EUpstream (request : list Part)       (* a call of the upstream client *)
| ETimeout (ms : N)                     (* [setTimeout(resolve, ms)] awaited *)
| EFetch (images : list string) (prompt : string). (* POST /api/generate *)

Definition Trace : Type := list Event.

Definition isUpstream (e : Event) : bool :=
  match e with EUpstream _ => true | _ => false end.

Definition isFetch (e : Event) : bool :=
  match e with EFetch _ _ => true | _ => false end.

Definition upstreamCalls (t : Trace) : nat := length (List.filter isUpstream t).
Definition fetchCalls (t : Trace) : nat := length (List.filter isFetch t).

(** How a computation completes: it returns, or it throws. *)
Inductive Completion (A : Type) : Type :=
| Returned (a : A)
| Threw (e : Js.Thrown).
Arguments Returned {A} a.
Arguments Threw {A} e.

Definition Eff (A : Type) : Type := Trace -> Completion A * Trace.

Definition ret {A} (a : A) : Eff A := fun t => (Returned a, t).
Definition throw {A} (e : Js.Thrown) : Eff A := fun t => (Threw e, t).

Definition bind {A B} (m : Eff A) (k : A -> Eff B) : Eff B :=
  fun t =>
    match m t with
    | (Returned a, t') => k a t'
    | (Threw e, t') => (Threw e, t')
    end.

Definition tryCatch {A} (m : Eff A) (handler : Js.Thrown -> Eff A) : Eff A :=
  fun t =>
    match m t with
    | (Returned a, t') => (Returned a, t')
    | (Threw e, t') => handler e t'
    end.

Definition emit (e : Event) : Eff unit := fun t => (Returned tt, t ++ [e]).

Definition liftCompletion {A} (c : Completion A) : Eff A := fun t => (c, t).

Notation "'let*' x := m 'in' k" := (bind m (fun x => k))
  (at level 10, x pattern, m at level 100, k at level 200).

(** ** The HTTP contract between the browser and the proxy *)

(** The JSON bodies exchanged, with the fields the code reads or writes. *)
Record JsonBody : Type := mkJsonBody {
  json_error : option string;
  json_message : option string;
  json_success : option bool;
  json_imageUrl : option string
}.

(** A request to [/api/generate] whose body is a JSON object: [images] is
    undefined when the body has no array there, [prompt] when it has no
    string there. The elements of [images] are strings. Requests without
    such a body, or with another element in [images], are outside this
    type. *)
Record HttpRequest : Type := mkHttpRequest {
  method : string;
  images : option (list string);
  prompt : option string
}.

(** A response: the status, and the body when it parses as JSON, to a
    value other than [null], of which the code reads the four fields. A
    body that is the JSON value [null] is outside this type. *)
Record HttpResponse : Type := mkHttpResponse {
  statusCode : N;
  body : option JsonBody
}.

Definition failureBody (error message : string) : JsonBody :=
  mkJsonBody (Some error) (Some message) None None.

(** ** The serverless proxy: code shared by both deployments

    [getFallbackPrompt], [extractStyle] and [generateStyleImage] have the
    same text in the Vercel and in the Netlify function;
    [callGeminiWithRetry] and the body of [handler] differ only in logging
    and in the envelope of the request and of the response. The two
    functions differ in [processGeminiResponse], a parameter here. *)

Module Proxy.

(** [getFallbackPrompt(style)] *)
Definition getFallbackPrompt (style : string) : string :=
  "Create a photorealistic image showing a remodeled version of the room in this photo in the "
  +:+ style +:+ " style. Focus on changing the furniture, wall color, and decor.".

(** The alternatives of the regular expression of [extractStyle], in its
    order. *)
Definition styleAlternatives : list string :=
  ["Modern"; "Scandinavian"; "Industrial"; "Bohemian"; "Farmhouse"; "Minimalist"].

(** A match of [/in a (Modern|...|Minimalist) design style/] anchored at the
    start of [s]: the first alternative for which the whole pattern is a
    prefix of [s]. *)
Definition matchStyleHere (s : string) : option string :=
  List.find (fun style => String.prefix ("in a " +:+ style +:+ " design style") s)
            styleAlternatives.

(** [extractStyle(prompt)]: the capture group of the leftmost match, or null. *)
Fixpoint extractStyle (prompt : string) : option string :=
  match matchStyleHere prompt with
  | Some style => Some style
  | None =>
      match prompt with
      | EmptyString => None
      | String _ rest => extractStyle rest
      end
  end.

(** The match of a data URL against the pattern of [generateStyleImage]:
    anchored at both ends, the text [data:], a first group [image/] followed
    by one or more word characters, the text [;base64,], and a second group
    of any characters but line terminators. The result is the two groups.
    The word characters are the whole run of them, since the [;] that must
    follow is not one. *)
Definition parseDataUrl (url : string) : option (string * string) :=
  match Js.stripPrefix "data:image/" url with
  | None => None
  | Some rest =>
      let (word, rest') := Js.span Js.isWordChar rest in
      match word with
      | EmptyString => None
      | String _ _ =>
          match Js.stripPrefix ";base64," rest' with
          | None => None
          | Some payload =>
              if Js.all (fun c => negb (Js.isLineTerminator c)) payload
              then Some ("image/" +:+ word, payload)
              else None
          end
      end
  end.

Definition invalidDataUrl : Js.Thrown :=
  Js.Error "Invalid image data URL format. Expected 'data:image/...;base64,...'".

(** [imageDataUrls.map(url => ...)]: the request parts of the images; the
    first URL that does not match throws. *)
Fixpoint imagePartsOf (imageDataUrls : list string) : Completion (list Part) :=
  match imageDataUrls with
  | [] => Returned []
  | url :: rest =>
      match parseDataUrl url with
      | None => Threw invalidDataUrl
      | Some (mimeType, base64Data) =>
          match imagePartsOf rest with
          | Returned ps => Returned (InlinePart mimeType base64Data :: ps)
          | Threw e => Threw e
          end
      end
  end.

Definition maxRetries : N := 3.
Definition initialDelay : N := 1000.

(** [errorMessage.includes('"code":500') || errorMessage.includes('INTERNAL')] *)
Definition isInternalError (errorMessage : string) : bool :=
  Js.includes errorMessage (Js.dq +:+ "code" +:+ Js.dq +:+ ":500")
  || Js.includes errorMessage "INTERNAL".

(** A failure that [callGeminiWithRetry] classifies as transient. *)
Definition transient (error : Js.Thrown) : Prop :=
  isInternalError (Js.messageOrJson error) = true.

Definition noImageMarker : string :=
  "The AI model responded with text instead of an image".

(** [errorMessage.includes("The AI model responded with text instead of an image")] *)
Definition isNoImageError (errorMessage : string) : bool :=
  Js.includes errorMessage noImageMarker.

(** The two failures that [generateStyleImage] builds. *)
Definition bothFailed (fallbackError : Js.Thrown) : Js.Thrown :=
  Js.Error ("The AI model failed with both original and fallback prompts. Last error: "
            +:+ Js.messageOrString fallbackError).

Definition unrecoverable (error : Js.Thrown) : Js.Thrown :=
  Js.Error ("The AI model failed to generate an image. Details: "
            +:+ Js.messageOrJson error).

Section WithUpstream.

Variable upstream : Upstream.

(** [await ai.models.generateContent({ model, contents })]: the call is
    recorded, and answered by the upstream client. *)
Definition generateContent (parts : list Part) : Eff Response :=
  fun t =>
    (match upstream (upstreamCalls t) parts with
     | inl response => Returned response
     | inr error => Threw error
     end, t ++ [EUpstream parts]).

(** The loop [for (let attempt = 1; attempt <= maxRetries; attempt++)] of
    [callGeminiWithRetry], from [attempt] on; [remaining] counts the
    iterations left, [maxRetries + 1 - attempt]. Leaving the loop reaches
    the final [throw]. *)
Fixpoint retryLoop (remaining : nat) (attempt : N) (parts : list Part)
  : Eff Response :=
  match remaining with
  | O => throw (Js.Error "Gemini API call failed after all retries.")
  | S remaining' =>
      tryCatch (generateContent parts)
        (fun error =>
           let errorMessage := Js.messageOrJson error in
           if isInternalError errorMessage && (attempt <? maxRetries)%N then
             let delay := (initialDelay * 2 ^ (attempt - 1))%N in
             let* _ := emit (ETimeout delay) in
             retryLoop remaining' (attempt + 1)%N parts
           else throw error)
  end.

(** [callGeminiWithRetry(parts)] *)
Definition callGeminiWithRetry (parts : list Part) : Eff Response :=
  retryLoop (N.to_nat maxRetries) 1%N parts.

Section WithInterpreter.

Variable processGeminiResponse : Response -> Completion string.

(** [generateStyleImage(imageDataUrls, prompt)] of the proxy. *)
Definition generateStyleImage (imageDataUrls : list string) (prompt : string)
  : Eff string :=
  let* imageParts := liftCompletion (imagePartsOf imageDataUrls) in
  let textPart := TextPart prompt in
  tryCatch
    (let allParts := imageParts ++ [textPart] in
     let* response := callGeminiWithRetry allParts in
     liftCompletion (processGeminiResponse response))
    (fun error =>
       let errorMessage := Js.messageOrJson error in
       if isNoImageError errorMessage then
         let style := extractStyle prompt in
         if negb (Js.truthy style) then throw error
         else
           tryCatch
             (let fallbackPrompt := getFallbackPrompt (Js.tmpl style) in
              let fallbackTextPart := TextPart fallbackPrompt in
              let fallbackParts := imageParts ++ [fallbackTextPart] in
              let* fallbackResponse := callGeminiWithRetry fallbackParts in
              liftCompletion (processGeminiResponse fallbackResponse))
             (fun fallbackError =>
                let finalErrorMessage := Js.messageOrString fallbackError in
                throw (Js.Error
                  ("The AI model failed with both original and fallback prompts. Last error: "
                   +:+ finalErrorMessage)))
       else
         throw (Js.Error
           ("The AI model failed to generate an image. Details: " +:+ errorMessage))).

(** The exported [handler], without the CORS headers: the preflight and
    method checks, the validation of the body, the generation, and the
    conversion of any failure to a 500 response. *)
Definition handler (req : HttpRequest) : Eff HttpResponse :=
  if String.eqb (method req) "OPTIONS" then ret (mkHttpResponse 200 None)
  else if negb (String.eqb (method req) "POST") then
    ret (mkHttpResponse 405
           (Some (failureBody "Method not allowed" "Only POST requests are supported")))
  else
    tryCatch
      (match images req with
       | None | Some [] =>
           ret (mkHttpResponse 400
                  (Some (failureBody "Invalid request"
                           ("Missing or invalid " +:+ Js.dq +:+ "images" +:+ Js.dq
                            +:+ " array in request body"))))
       | Some imgs =>
           if negb (Js.truthy (prompt req)) then
             ret (mkHttpResponse 400
                    (Some (failureBody "Invalid request"
                             ("Missing or invalid " +:+ Js.dq +:+ "prompt" +:+ Js.dq
                              +:+ " string in request body"))))
           else if negb (forallb (fun image => Js.startsWith image "data:image/") imgs) then
             ret (mkHttpResponse 400
                    (Some (failureBody "Invalid image format"
                             ("All images must be valid data URLs starting with "
                              +:+ Js.dq +:+ "data:image/" +:+ Js.dq))))
           else
             let* imageUrl := generateStyleImage imgs (Js.tmpl (prompt req)) in
             ret (mkHttpResponse 200
                    (Some (mkJsonBody None (Some "Image generated successfully")
                                      (Some true) (Some imageUrl))))
       end)
      (fun error =>
         let errorMessage :=
           match error with
           | Js.Error message => message
           | Js.Value _ _ => "Unknown error occurred"
           end in
         ret (mkHttpResponse 500
                (Some (mkJsonBody (Some "Image generation failed") (Some errorMessage)
                                  (Some false) None)))).

End WithInterpreter.
End WithUpstream.

End Proxy.

(** The parts of the first candidate of a response hold no inline data. *)
Definition noInlinePart (response : Response) : Prop :=
  forall c cs ct ps,
    candidates response = Some (c :: cs) -> content c = Some ct ->
    parts ct = Some ps -> Forall (fun p => inlineData p = None) ps.

(** [part] is the first part with inline data among the parts of the first
    candidate of a response, and [blob] is that data. *)
Definition firstInlinePart (response : Response) (part : ContentPart)
  (blob : InlineData) : Prop :=
  exists c cs ct before after,
    candidates response = Some (c :: cs) /\ content c = Some ct /\
    parts ct = Some (before ++ part :: after) /\
    Forall (fun p => inlineData p = None) before /\
    inlineData part = Some blob.

(** ** [api/generate.ts]: the Vercel deployment *)

Module Vercel.

Definition hasInlineData (part : ContentPart) : bool :=
  match inlineData part with Some _ => true | None => false end.

(** [processGeminiResponse(response)] *)
Definition processGeminiResponse (response : Response) : Completion string :=
  let imagePartFromResponse :=
    candidates response ?. head ?. content ?. parts ?. List.find hasInlineData in
  match imagePartFromResponse ?. inlineData with
  | Some blob =>
      Returned ("data:" +:+ Js.tmpl (mimeType blob) +:+ ";base64," +:+ Js.tmpl (data blob))
  | None =>
      let textResponse := response_text response in
      Threw (Js.Error
        ("The AI model responded with text instead of an image: " +:+ Js.dq
         +:+ Js.tmpl (Js.or textResponse (Some "No text response received."))
         +:+ Js.dq))
  end.

Definition generateStyleImage (upstream : Upstream) :=
  Proxy.generateStyleImage upstream processGeminiResponse.

Definition handler (upstream : Upstream) :=
  Proxy.handler upstream processGeminiResponse.

End Vercel.

(** ** The Netlify deployment *)

Module Netlify.

Section WithStringify.

(** [JSON.stringify] on a content object. *)
Variable stringify : Content -> string.

(** The loop [for (const part of parts)]: the first part with inline data
    decides; [None] when the loop ends without one. *)
Fixpoint scanParts (ps : list ContentPart) : option (Completion string) :=
  match ps with
  | [] => None
  | part :: rest =>
      match inlineData part with
      | Some blob =>
          if negb (Js.truthy (data blob)) then
            Some (Threw (Js.Error "Image data is empty"))
          else
            Some (Returned ("data:" +:+ Js.tmpl (mimeType blob) +:+ ";base64,"
                            +:+ Js.tmpl (data blob)))
      | None => scanParts rest
      end
  end.

(** [processGeminiResponse(response)] *)
Definition processGeminiResponse (response : Response) : Completion string :=
  let candidates :=
    match candidates response with
    | Some cs => Some cs
    | None => inner_candidates response
    end in
  let firstCandidate := candidates ?. head in
  let parts := firstCandidate ?. content ?. parts in
  match parts ?. scanParts with
  | Some completion => completion
  | None =>
      let textResponse :=
        Js.or (Js.or (parts ?. List.find (fun p => Js.truthy (text p)) ?. text)
                     (response_text response))
              (firstCandidate ?. content ?. (fun c => Some (stringify c))) in
      Threw (Js.Error
        ("The AI model did not generate an image. Response: " +:+ Js.dq
         +:+ Js.tmpl (Js.or textResponse (Some "No valid response received."))
         +:+ Js.dq))
  end.

Definition generateStyleImage (upstream : Upstream) :=
  Proxy.generateStyleImage upstream processGeminiResponse.

Definition handler (upstream : Upstream) :=
  Proxy.handler upstream processGeminiResponse.

End WithStringify.

End Netlify.

(** ** [services/geminiService.ts]: the browser service *)

Module Client.

(** [response.ok] *)
Definition ok (response : HttpResponse) : bool :=
  (200 <=? statusCode response)%N && (statusCode response <=? 299)%N.

Definition emptyBody : JsonBody := mkJsonBody None None None None.

(** What [response.json()] throws on a body that is not JSON. *)
Definition jsonSyntaxError : Js.Thrown := Js.Error "Unexpected end of JSON input".

Section WithFetch.

(** [fetch('/api/generate', { method: 'POST', ..., body })] for a body
    holding [images] and [prompt]. *)
Variable fetch : list string -> string -> Eff HttpResponse.

(** [generateStyleImage(imageDataUrls, prompt)] of the browser. *)
Definition generateStyleImage (imageDataUrls : list string) (prompt : string)
  : Eff string :=
  tryCatch
    (match imageDataUrls with
     | [] => throw (Js.Error "At least one image is required for remodeling")
     | _ :: _ =>
         if negb (Js.truthy (Some prompt)) || Js.isBlank prompt then
           throw (Js.Error "A prompt is required for image generation")
         else if negb (forallb (fun imageUrl => Js.startsWith imageUrl "data:image/")
                               imageDataUrls) then
           throw (Js.Error "All images must be valid data URLs")
         else
           let* response := fetch imageDataUrls prompt in
           if negb (ok response) then
             let errorData := default emptyBody (body response) in
             let errorMessage :=
               Js.tmpl (Js.or (Js.or (json_message errorData) (json_error errorData))
                              (Some ("Server responded with status: "
                                     +:+ pretty (statusCode response)))) in
             throw (Js.Error ("Image generation failed: " +:+ errorMessage))
           else
             match body response with
             | None => throw jsonSyntaxError
             | Some data =>
                 if negb (bool_decide (json_success data = Some true))
                    || negb (Js.truthy (json_imageUrl data)) then
                   throw (Js.Error
                     (Js.tmpl (Js.or (json_message data)
                                     (Some "Backend API returned invalid response format"))))
                 else ret (Js.tmpl (json_imageUrl data))
             end
     end)
    (fun error =>
       let errorMessage := Js.messageOrString error in
       if Js.includes errorMessage "IMAGE_GENERATION_NOT_SUPPORTED" then
         throw (Js.Error "⚠️ Technical Issue: This application is configured to use Google Gemini API, which cannot generate images. To enable image generation, the application needs to be updated to use an image generation service like DALL-E or Stable Diffusion.")
       else if Js.includes errorMessage "Failed to fetch"
               || Js.includes errorMessage "NetworkError" then
         throw (Js.Error "Network error: Unable to connect to the image generation service. Please check your internet connection and try again.")
       else if Js.includes errorMessage "Server responded with status: 5" then
         throw (Js.Error "Server error: The image generation service is temporarily unavailable. Please try again in a few minutes.")
       else
         throw (Js.Error ("Failed to generate image: " +:+ errorMessage))).

End WithFetch.

(** The network between the browser and the deployed proxy: the request is
    recorded; when the proxy is reachable its handler answers, otherwise
    [fetch] rejects. *)
Definition fetchProxy (reachable : bool) (handler : HttpRequest -> Eff HttpResponse)
  (images : list string) (prompt : string) : Eff HttpResponse :=
  let* _ := emit (EFetch images prompt) in
  if reachable then handler (mkHttpRequest "POST" (Some images) (Some prompt))
  else throw (Js.Error "Failed to fetch").

End Client.

(** ** [App.tsx]: session state, the generation round and regeneration *)

Module App.

Definition STYLES : list string :=
  ["Modern"; "Scandinavian"; "Industrial"; "Bohemian"; "Farmhouse"; "Minimalist"].

Inductive ImageStatus : Type := pending | done | error.

Record GeneratedImage : Type := mkGeneratedImage {
  status : ImageStatus;
  url : option string;
  errorText : option string    (* the field [error] *)
}.

(** The prompt built by [processStyle] and by [handleRegenerateStyle]. *)
Definition stylePrompt (style : string) : string :=
  "Using the provided image(s) of a room or home exterior, generate a photorealistic remodeled version in a "
  +:+ style
  +:+ " design style. The new design should be a plausible renovation of the original space, keeping the core structure (windows, doors) in the same location but changing walls, floors, furniture, lighting, and decor to fit the new aesthetic. The output must be a high-quality, photorealistic image.".

Definition pendingImage : GeneratedImage := mkGeneratedImage pending None None.

(** The state update that ends [processStyle] and [handleRegenerateStyle]:
    [done] with the URL when the service returned, [error] with the message
    when it threw. *)
Definition settle (style : string) (result : Completion string)
  (prev : gmap string GeneratedImage) : gmap string GeneratedImage :=
  match result with
  | Returned resultUrl =>
      <[style := mkGeneratedImage done (Some resultUrl) None]> prev
  | Threw err =>
      let errorMessage :=
        match err with
        | Js.Error message => message
        | Js.Value _ _ => "An unknown error occurred."
        end in
      <[style := mkGeneratedImage error None (Some errorMessage)]> prev
  end.

(** The component state read and written by the two handlers. *)
Record State : Type := mkState {
  uploadedImages : list string;
  generatedImages : gmap string GeneratedImage
}.

Section WithService.

(** The imported [generateStyleImage] of the browser service. *)
Variable generateStyleImage : list string -> string -> Eff string.

(** [handleRegenerateStyle(style)], run until its promise settles. *)
Definition handleRegenerateStyle (style : string) (st : State) (t : Trace)
  : State * Trace :=
  match uploadedImages st with
  | [] => (st, t)
  | _ :: _ =>
      match status <$> generatedImages st !! style with
      | Some pending => (st, t)
      | _ =>
          let st1 := mkState (uploadedImages st)
                             (<[style := pendingImage]> (generatedImages st)) in
          let prompt := stylePrompt style in
          let (result, t') := generateStyleImage (uploadedImages st1) prompt t in
          (mkState (uploadedImages st1) (settle style result (generatedImages st1)), t')
      end
  end.

End WithService.

(** *** The generation round of [handleGenerateClick] *)

Definition concurrencyLimit : nat := 2.

(** [initialImages]: every style of the catalogue set to pending. *)
Definition initialImages : gmap string GeneratedImage :=
  foldl (fun acc style => <[style := pendingImage]> acc) ∅ STYLES.

(** A worker of the pool: at the head of its [while] loop, awaiting
    [processStyle(style)], or returned. *)
Inductive Worker : Type :=
| Looping
| Awaiting (style : string)
| Exited.

(** A round in progress: the shared queue, the workers, the session state,
    and (a history variable) the styles whose task has settled. *)
Record Round : Type := mkRound {
  stylesQueue : list string;
  workers : list Worker;
  session : gmap string GeneratedImage;
  settled : list string
}.

(** The round as [handleGenerateClick] starts it: no round without an
    uploaded image. *)
Definition handleGenerateClick (st : State) : option Round :=
  match uploadedImages st with
  | [] => None
  | _ :: _ =>
      Some (mkRound STYLES (replicate concurrencyLimit Looping) initialImages [])
  end.

(** One step of worker [i]. A looping worker returns when the queue is
    empty; otherwise it shifts the head of the queue and, when that style
    is a non-empty string, starts [processStyle] on it. An awaiting worker
    resumes when its task settles, with whatever result the service gave,
    writes the outcome and loops. *)
Inductive step : Round -> Round -> Prop :=
| step_exit i r :
    workers r !! i = Some Looping ->
    stylesQueue r = [] ->
    step r (mkRound [] (<[i := Exited]> (workers r)) (session r) (settled r))
| step_start i r style rest :
    workers r !! i = Some Looping ->
    stylesQueue r = style :: rest ->
    style ≠ "" ->
    step r (mkRound rest (<[i := Awaiting style]> (workers r)) (session r) (settled r))
| step_skip i r rest :
    workers r !! i = Some Looping ->
    stylesQueue r = "" :: rest ->
    step r (mkRound rest (workers r) (session r) (settled r))
| step_settle i r style result :
    workers r !! i = Some (Awaiting style) ->
    step r (mkRound (stylesQueue r) (<[i := Looping]> (workers r))
                    (settle style result (session r)) (settled r ++ [style])).

(** Executions: zero or more steps. *)
Inductive steps : Round -> Round -> Prop :=
| steps_refl r : steps r r
| steps_step r1 r2 r3 : steps r1 r2 -> step r2 r3 -> steps r1 r3.

Definition isAwaiting (w : Worker) : bool :=
  match w with Awaiting _ => true | _ => false end.

(** The number of tasks in flight. *)
Definition inFlight (r : Round) : nat := length (List.filter isAwaiting (workers r)).

(** The scheduler has completed: [Promise.all(workers)] resolves. *)
Definition completed (r : Round) : Prop := Forall (fun w => w = Exited) (workers r).

Definition isTerminal (o : option GeneratedImage) : Prop :=
  exists g, o = Some g /\ (status g = done \/ status g = error).

(** The styles of the tasks in flight. *)
Definition awaitingStyles (ws : list Worker) : list string :=
  omap (fun w => match w with Awaiting style => Some style | _ => None end) ws.

(** The styles of the queue that a worker will process. *)
Definition nonEmpty (style : string) : bool := negb (String.eqb style "").

(** A bound on the steps left: three per queued style, two per task in
    flight (it settles, then its worker loops or returns), one per looping
    worker. *)
Definition weight (w : Worker) : nat :=
  match w with
  | Looping => 1
  | Awaiting _ => 2
  | Exited => 0
  end.

Definition measure (r : Round) : nat :=
  3 * length (stylesQueue r) + sum_list_with weight (workers r).

(** What every state of a round satisfies: the pool keeps its size, a
    worker has returned only if the queue is empty, every style of the
    catalogue is settled, in flight or queued, and the styles settled have
    a terminal entry. *)
Record invariant (r : Round) : Prop := mkInvariant {
  inv_pool : length (workers r) = concurrencyLimit;
  inv_exit : Exited ∈ workers r -> stylesQueue r = [];
  inv_styles :
    settled r ++ awaitingStyles (workers r) ++ List.filter nonEmpty (stylesQueue r)
    ≡ₚ STYLES;
  inv_settled : forall style, style ∈ settled r -> isTerminal (session r !! style)
}.

#[global] Instance Worker_eq_dec : EqDecision Worker.
Proof. solve_decision. Defined.

(** The step that worker [i] takes, if it can take one; [result] is what the
    service gives when the step settles a task. *)
Definition advance (i : nat) (result : Completion string) (r : Round)
  : option Round :=
  match workers r !! i with
  | Some Looping =>
      match stylesQueue r with
      | [] => Some (mkRound [] (<[i := Exited]> (workers r)) (session r) (settled r))
      | style :: rest =>
          if nonEmpty style then
            Some (mkRound rest (<[i := Awaiting style]> (workers r)) (session r)
                          (settled r))
          else Some (mkRound rest (workers r) (session r) (settled r))
      end
  | Some (Awaiting style) =>
      Some (mkRound (stylesQueue r) (<[i := Looping]> (workers r))
                    (settle style result (session r)) (settled r ++ [style]))
  | Some Exited | None => None
  end.

(** A schedule: which worker moves next, and with which result. *)
Fixpoint run (schedule : list (nat * Completion string)) (r : Round) : option Round :=
  match schedule with
  | [] => Some r
  | (i, result) :: rest =>
      match advance i result r with
      | Some r' => run rest r'
      | None => None
      end
  end.

End App.

(** ** Concrete inputs used to exercise the code *)

Module Fixtures.

(** An uploaded photo, and the request part it becomes. *)
Definition photo : string := "data:image/png;base64,iVBORw0KGgo=".
Definition photoPart : Part := InlinePart "image/png" "iVBORw0KGgo=".

(** A response with one generated image, and the data URL built from it. *)
Definition imageResponse : Response :=
  mkResponse
    (Some [mkCandidate (Some (mkContent (Some
       [mkContentPart (Some (mkInlineData (Some "image/png") (Some "AAAA"))) None])))])
    None None.
Definition imageUrl : string := "data:image/png;base64,AAAA".

(** A refusal: one candidate whose only part is a text. *)
Definition refusalResponse : Response :=
  mkResponse
    (Some [mkCandidate (Some (mkContent (Some
       [mkContentPart None (Some "I cannot edit this image.")])))])
    None (Some "I cannot edit this image.").

(** An upstream failure with the signal of an internal error. *)
Definition internalError : Js.Thrown :=
  Js.Error "got status: 500 INTERNAL. An internal error has occurred.".

(** An upstream failure that is not an internal error. *)
Definition quotaError : Js.Thrown :=
  Js.Error "got status: 429 RESOURCE_EXHAUSTED. Quota exceeded.".

(** The client fails on its first two calls with an internal error and
    answers the third with an image. *)
Definition flaky : Upstream :=
  fun n _ => if (n <? 2)%nat then inr internalError else inl imageResponse.

(** The client refuses every request. *)
Definition refusing : Upstream := fun _ _ => inl refusalResponse.

(** The client refuses every request but those whose instruction holds the
    opening words of the fallback prompt, which it answers with an image. *)
Definition fallbackOnly : Upstream :=
  fun _ request =>
    if existsb (fun part =>
                  match part with
                  | TextPart instruction =>
                      Js.includes instruction
                        "Create a photorealistic image showing a remodeled version"
                  | InlinePart _ _ => false
                  end) request
    then inl imageResponse else inl refusalResponse.

(** The client always answers with an image. *)
Definition generous : Upstream := fun _ _ => inl imageResponse.

(** The client fails its first call with an error that is not an internal
    error but whose message holds the text by which [generateStyleImage]
    recognises a response without image; it answers later calls with an
    image. *)
Definition misleading : Upstream :=
  fun n _ =>
    if (n =? 0)%nat then inr (Js.Error Proxy.noImageMarker) else inl imageResponse.

(** The client fails every call with a quota error. *)
Definition exhausted : Upstream := fun _ _ => inr quotaError.

(** A response without candidates and without text. *)
Definition emptyResponse : Response := mkResponse None None None.

(** A response whose image has a media type with a character outside the
    word characters. *)
Definition svgResponse : Response :=
  mkResponse
    (Some [mkCandidate (Some (mkContent (Some
       [mkContentPart (Some (mkInlineData (Some "image/svg+xml") (Some "AAAA"))) None])))])
    None None.

(** A response whose first candidate is a refusal and whose second
    candidate holds an image. *)
Definition secondCandidateResponse : Response :=
  mkResponse
    (Some [mkCandidate (Some (mkContent (Some
             [mkContentPart None (Some "I cannot edit this image.")])));
           mkCandidate (Some (mkContent (Some
             [mkContentPart (Some (mkInlineData (Some "image/png") (Some "AAAA")))
                            None])))])
    None (Some "I cannot edit this image.").

(** A photo whose URL starts like a data URL of an image but has no
    [;base64,] part. *)
Definition malformedPhoto : string := "data:image/png,abc".

(** The browser service in front of the Vercel proxy, over a reachable
    network and a client that always answers with an image. *)
Definition service : list string -> string -> Eff string :=
  Client.generateStyleImage (Client.fetchProxy true (Vercel.handler generous)).

(** A component state in the middle of a round: Modern is pending,
    Scandinavian is done. *)
Definition midRound : App.State :=
  App.mkState [photo]
    (<["Scandinavian" := App.mkGeneratedImage App.done (Some imageUrl) None]>
       (<["Modern" := App.pendingImage]> ∅)).

(** The round started from [midRound]. *)
Definition startedRound : App.Round :=
  App.mkRound App.STYLES [App.Looping; App.Looping] App.initialImages [].

(** The two workers move in turn; the tasks of the first succeed, those of
    the second fail. *)
Definition alternating : list (nat * Completion string) :=
  concat (replicate 7 [(0, Returned imageUrl); (1, Threw quotaError)]).

Definition modernRequest : list Part :=
  [photoPart; TextPart (App.stylePrompt "Modern")].

Definition modernFallbackRequest : list Part :=
  [photoPart; TextPart (Proxy.getFallbackPrompt "Modern")].

End Fixtures.

(** ** Further vocabulary for the properties *)

(** The text that [extractStyle] looks for, for one style. *)
Definition stylePattern (style : string) : string :=
  "in a " +:+ style +:+ " design style".

(** The data URL of a media type and a payload, as both interpreters and
    the browser build it. *)
Definition dataUrl (mimeType payload : string) : string :=
  "data:" +:+ mimeType +:+ ";base64," +:+ payload.

(** A media type that the pattern of [generateStyleImage] accepts:
    [image/] followed by one or more word characters. *)
Definition imageMediaType (mimeType : string) : Prop :=
  exists word, mimeType = "image/" +:+ word /\ word <> ""
               /\ Js.all Js.isWordChar word = true.

(** A payload without line terminator. *)
Definition singleLine (payload : string) : Prop :=
  Js.all (fun c => negb (Js.isLineTerminator c)) payload = true.

(** The time spent in timers along a trace, in milliseconds. *)
Fixpoint waited (t : Trace) : N :=
  match t with
  | [] => 0
  | ETimeout ms :: rest => (ms + waited rest)%N
  | _ :: rest => waited rest
  end.

(** The events that one run of [callGeminiWithRetry] on a request can
    add to the trace. *)
Definition retryEvents (request : list Part) (events : Trace) : Prop :=
  events = [EUpstream request]
  \/ events = [EUpstream request; ETimeout 1000; EUpstream request]
  \/ events = [EUpstream request; ETimeout 1000; EUpstream request;
               ETimeout 2000; EUpstream request].

(** The upstream client of the longest generation: two internal errors and
    a refusal for the primary prompt, then two internal errors and an
    image for the fallback prompt. *)
Definition slowest : Upstream :=
  fun n _ =>
    match n with
    | 2 => inl Fixtures.refusalResponse
    | 5 => inl Fixtures.imageResponse
    | _ => inr Fixtures.internalError
    end.

(** The three fixed messages of the browser service. *)
Definition technicalIssueText : string :=
  "⚠️ Technical Issue: This application is configured to use Google Gemini API, which cannot generate images. To enable image generation, the application needs to be updated to use an image generation service like DALL-E or Stable Diffusion.".

Definition networkErrorText : string :=
  "Network error: Unable to connect to the image generation service. Please check your internet connection and try again.".

Definition serverErrorText : string :=
  "Server error: The image generation service is temporarily unavailable. Please try again in a few minutes.".

(** The field [imageUrl], [success] or [message] of the body of a response,
    when it has a body. *)
Definition responseImageUrl (response : HttpResponse) : option string :=
  body response ?. json_imageUrl.

Definition responseSuccess (response : HttpResponse) : option bool :=
  body response ?. json_success.

Definition responseMessage (response : HttpResponse) : option string :=
  body response ?. json_message.

(** The message that the handler of the proxy reports for a failure. *)
Definition reportedMessage (error : Js.Thrown) : string :=
  match error with
  | Js.Error message => message
  | Js.Value _ _ => "Unknown error occurred"
  end.

(** Executions of a round, with their number of steps. *)
Inductive stepsN : nat -> App.Round -> App.Round -> Prop :=
| stepsN_refl r : stepsN 0 r r
| stepsN_step n r1 r2 r3 :
    stepsN n r1 r2 -> App.step r2 r3 -> stepsN (S n) r1 r3.

(** The steps that a round still has to take: two per queued style (its
    task starts, then settles), one per empty entry of the queue, two per
    task in flight (it settles, then its worker looks at the queue again),
    one per looping worker. *)
Definition stepsLeft (r : App.Round) : nat :=
  sum_list_with (fun style => if App.nonEmpty style then 2 else 1) (App.stylesQueue r)
  + sum_list_with App.weight (App.workers r).

(** [processStyle(style)] of [handleGenerateClick], run until it settles:
    the prompt of the style is sent to the service with the uploaded
    images, and the outcome is written to the entry of the style. *)
Definition processStyle (generateStyleImage : list string -> string -> Eff string)
  (uploadedImages : list string) (style : string)
  (prev : gmap string App.GeneratedImage) (t : Trace)
  : gmap string App.GeneratedImage * Trace :=
  let prompt := App.stylePrompt style in
  let (result, t') := generateStyleImage uploadedImages prompt t in
  (App.settle style result prev, t').

(** An upstream failure that is not an internal error and whose text holds
    one of the markers of the browser service; a client that fails every
    call with it. *)
Definition unreachableError : Js.Thrown :=
  Js.Error "NetworkError when attempting to fetch resource.".

Definition unreachable : Upstream := fun _ _ => inr unreachableError.

(** The client fails its first call with an internal error and its second
    with a quota error. *)
Definition flakyThenExhausted : Upstream :=
  fun n _ =>
    if (n =? 0)%nat then inr Fixtures.internalError else inr Fixtures.quotaError.

(** * Properties *)

(** ** The trace *)

Lemma upstreamCalls_app t1 t2 :
  upstreamCalls (t1 ++ t2) = upstreamCalls t1 + upstreamCalls t2.
Proof. unfold upstreamCalls. by rewrite List.filter_app, length_app. Qed.

(** ** The retrying call wrapper *)

Section Retry.

Variable upstream : Upstream.
Variable request : list Part.

Local Abbreviation call := (EUpstream request).

(** One iteration of the loop with attempts remaining after it. *)
Lemma retryLoop_step remaining attempt t :
  Proxy.retryLoop upstream (S remaining) attempt request t =
  match upstream (upstreamCalls t) request with
  | inl response => (Returned response, t ++ [call])
  | inr e =>
      if Proxy.isInternalError (Js.messageOrJson e) && (attempt <? Proxy.maxRetries)%N
      then Proxy.retryLoop upstream remaining (attempt + 1)%N request
             (t ++ [call] ++ [ETimeout (Proxy.initialDelay * 2 ^ (attempt - 1))%N])
      else (Threw e, t ++ [call])
  end.
Proof.
  cbn [Proxy.retryLoop]. unfold tryCatch, Proxy.generateContent.
  destruct (upstream (upstreamCalls t) request) as [response|e]; [done|].
  destruct (_ && _); [|done].
  unfold bind, emit. by rewrite <- app_assoc.
Qed.

Lemma upstreamCalls_retry_step t d :
  upstreamCalls (t ++ [call] ++ [ETimeout d]) = S (upstreamCalls t).
Proof. rewrite upstreamCalls_app. cbn. lia. Qed.

End Retry.

(** C1. [callGeminiWithRetry] issues between one and three upstream calls.
    Its behaviour is decided by the answers to those calls: a success is
    returned unmodified at once; a failure is retried exactly when it is
    transient and the attempt was the first or the second, after a wait of
    1000 ms (after attempt 1) or 2000 ms (after attempt 2); any other
    failure, and any failure of attempt 3, is thrown as it is. In
    particular, when the first two calls fail transiently and the third
    succeeds, the third response is returned after exactly three calls and
    the waits 1000 and 2000. *)
Theorem callGeminiWithRetry_contract
  (upstream : Upstream) (request : list Part) (t : Trace) :
  let n := upstreamCalls t in
  let call := EUpstream request in
  let run := Proxy.callGeminiWithRetry upstream request t in
  (S n <= upstreamCalls run.2 <= n + 3) /\
  (forall r, upstream n request = inl r -> run = (Returned r, t ++ [call])) /\
  (forall e1, upstream n request = inr e1 -> ~ Proxy.transient e1 ->
     run = (Threw e1, t ++ [call])) /\
  (forall e1, upstream n request = inr e1 -> Proxy.transient e1 ->
     (forall r, upstream (S n) request = inl r ->
        run = (Returned r, t ++ [call; ETimeout 1000; call])) /\
     (forall e2, upstream (S n) request = inr e2 -> ~ Proxy.transient e2 ->
        run = (Threw e2, t ++ [call; ETimeout 1000; call])) /\
     (forall e2, upstream (S n) request = inr e2 -> Proxy.transient e2 ->
        (forall r, upstream (S (S n)) request = inl r ->
           run = (Returned r,
                  t ++ [call; ETimeout 1000; call; ETimeout 2000; call])) /\
        (forall e3, upstream (S (S n)) request = inr e3 ->
           run = (Threw e3,
                  t ++ [call; ETimeout 1000; call; ETimeout 2000; call])))).
Proof.
  intros n call run. subst call run. unfold Proxy.callGeminiWithRetry, Proxy.transient.
  change (N.to_nat Proxy.maxRetries) with 3.
  assert (Hn : forall (c : Completion Response) t',
             1 <= upstreamCalls t' <= 3 ->
             S n <= upstreamCalls (c, t ++ t').2 <= n + 3).
  { intros c t' Ht'. cbn [snd]. rewrite upstreamCalls_app. fold n. lia. }
  rewrite retryLoop_step. fold n.
  destruct (upstream n request) as [r1|e1] eqn:H1.
  { split; [apply Hn; cbn; lia|]. repeat split; intros; congruence. }
  destruct (Proxy.isInternalError (Js.messageOrJson e1)) eqn:T1; cbn [andb].
  2:{ split; [apply Hn; cbn; lia|]. repeat split; intros; congruence. }
  change (1 <? Proxy.maxRetries)%N with true. cbn [andb].
  change (Proxy.initialDelay * 2 ^ (1 - 1))%N with 1000%N.
  rewrite retryLoop_step, upstreamCalls_retry_step. fold n.
  change (1 + 1)%N with 2%N.
  destruct (upstream (S n) request) as [r2|e2] eqn:H2.
  { rewrite <- !app_assoc. cbn [app]. split; [apply Hn; cbn; lia|].
    split; [intros; congruence|]. split; [intros; congruence|].
    intros e1' [= <-] _. repeat split; intros; congruence. }
  destruct (Proxy.isInternalError (Js.messageOrJson e2)) eqn:T2; cbn [andb].
  2:{ rewrite <- !app_assoc. cbn [app]. split; [apply Hn; cbn; lia|].
      split; [intros; congruence|]. split; [intros; congruence|].
      intros e1' [= <-] _. repeat split; intros; congruence. }
  change (2 <? Proxy.maxRetries)%N with true. cbn [andb].
  change (Proxy.initialDelay * 2 ^ (2 - 1))%N with 2000%N.
  rewrite retryLoop_step, !upstreamCalls_retry_step. fold n.
  destruct (upstream (S (S n)) request) as [r3|e3] eqn:H3;
    [|change (2 + 1 <? Proxy.maxRetries)%N with false; rewrite andb_false_r];
    rewrite <- !app_assoc; cbn [app];
    (split; [apply Hn; cbn; lia|]);
    (split; [intros; congruence|]); (split; [intros; congruence|]);
    intros e1' [= <-] _; (split; [intros; congruence|]);
    (split; [intros; congruence|]);
    intros e2' [= <-] _; split; intros; congruence.
Qed.

Lemma callGeminiWithRetry_contract_witness :
  Proxy.callGeminiWithRetry Fixtures.flaky Fixtures.modernRequest [] =
  (Returned Fixtures.imageResponse,
   [EUpstream Fixtures.modernRequest; ETimeout 1000;
    EUpstream Fixtures.modernRequest; ETimeout 2000;
    EUpstream Fixtures.modernRequest]).
Proof.
  destruct (callGeminiWithRetry_contract Fixtures.flaky Fixtures.modernRequest [])
    as (_ & _ & _ & H).
  destruct (H Fixtures.internalError eq_refl eq_refl) as (_ & _ & H2).
  destruct (H2 Fixtures.internalError eq_refl eq_refl) as (H3 & _).
  exact (H3 Fixtures.imageResponse eq_refl).
Defined.

(** ** Texts *)

Lemma includes_prefix s sub : String.prefix sub s = true -> Js.includes s sub = true.
Proof. intros H. destruct s; cbn [Js.includes]; by rewrite H. Qed.

Lemma extractStyle_alternative prompt style :
  Proxy.extractStyle prompt = Some style -> In style Proxy.styleAlternatives.
Proof.
  induction prompt as [|c rest IH]; cbn [Proxy.extractStyle];
    destruct (Proxy.matchStyleHere _) as [s|] eqn:Hm.
  - intros [= ->]. apply List.find_some in Hm. tauto.
  - discriminate.
  - intros [= ->]. apply List.find_some in Hm. tauto.
  - exact IH.
Qed.

Lemma extractStyle_truthy prompt style :
  Proxy.extractStyle prompt = Some style ->
  Js.truthy (Some style) = true.
Proof.
  intros H. apply extractStyle_alternative in H. cbn in H.
  repeat (destruct H as [<-|H]; [reflexivity|]). destruct H.
Qed.

(** The failure of the Vercel interpreter is recognised by
    [generateStyleImage] as a response without image. *)
Lemma vercel_failure_is_no_image response e :
  Vercel.processGeminiResponse response = Threw e ->
  Proxy.isNoImageError (Js.messageOrJson e) = true.
Proof.
  unfold Vercel.processGeminiResponse.
  destruct (_ ?. inlineData); [discriminate|]. intros [= <-].
  apply includes_prefix. reflexivity.
Qed.

(** ** The attempt and its fallback *)

Section Generation.

Variable upstream : Upstream.
Variable interpret : Response -> Completion string.
Variables (imageDataUrls : list string) (prompt : string) (imageParts : list Part).
Hypothesis Hparts : Proxy.imagePartsOf imageDataUrls = Returned imageParts.

Local Abbreviation generate := (Proxy.generateStyleImage upstream interpret).
Local Abbreviation callWith text :=
  (Proxy.callGeminiWithRetry upstream (imageParts ++ [TextPart text])).

Lemma generate_success t response t1 imageUrl :
  callWith prompt t = (Returned response, t1) ->
  interpret response = Returned imageUrl ->
  generate imageDataUrls prompt t = (Returned imageUrl, t1).
Proof.
  intros Hcall Hint. unfold Proxy.generateStyleImage, bind, tryCatch, liftCompletion.
  by rewrite Hparts, Hcall, Hint.
Qed.

(** The primary call fails with something else than a missing image: the
    failure is wrapped and thrown, with no further call. *)
Lemma generate_call_failed t e t1 :
  callWith prompt t = (Threw e, t1) ->
  Proxy.isNoImageError (Js.messageOrJson e) = false ->
  generate imageDataUrls prompt t = (Threw (Proxy.unrecoverable e), t1).
Proof.
  intros Hcall Hno. unfold Proxy.generateStyleImage, bind, tryCatch, liftCompletion.
  by rewrite Hparts, Hcall, Hno.
Qed.

(** The primary response holds no image and the prompt names a style: the
    outcome is that of one attempt with the fallback prompt. *)
Lemma generate_fallback t response e t1 style :
  callWith prompt t = (Returned response, t1) ->
  interpret response = Threw e ->
  Proxy.isNoImageError (Js.messageOrJson e) = true ->
  Proxy.extractStyle prompt = Some style ->
  generate imageDataUrls prompt t =
  match callWith (Proxy.getFallbackPrompt style) t1 with
  | (Returned fallbackResponse, t2) =>
      match interpret fallbackResponse with
      | Returned imageUrl => (Returned imageUrl, t2)
      | Threw fallbackError => (Threw (Proxy.bothFailed fallbackError), t2)
      end
  | (Threw fallbackError, t2) => (Threw (Proxy.bothFailed fallbackError), t2)
  end.
Proof.
  intros Hcall Hint Hno Hstyle.
  unfold Proxy.generateStyleImage, bind, tryCatch, liftCompletion, throw.
  rewrite Hparts, Hcall, Hint, Hno, Hstyle, (extractStyle_truthy _ _ Hstyle).
  cbn [negb Js.tmpl].
  destruct (callWith _ t1) as [[fallbackResponse|fallbackError] t2]; [|done].
  by destruct (interpret fallbackResponse).
Qed.

(** The primary response holds no image and the prompt names no style: the
    failure of the interpreter is thrown as it is, with no further call. *)
Lemma generate_no_style t response e t1 :
  callWith prompt t = (Returned response, t1) ->
  interpret response = Threw e ->
  Proxy.isNoImageError (Js.messageOrJson e) = true ->
  Proxy.extractStyle prompt = None ->
  generate imageDataUrls prompt t = (Threw e, t1).
Proof.
  intros Hcall Hint Hno Hstyle.
  unfold Proxy.generateStyleImage, bind, tryCatch, liftCompletion, throw.
  by rewrite Hparts, Hcall, Hint, Hno, Hstyle.
Qed.

(** The primary response is interpreted as a failure that is not
    recognised as a missing image: no fallback is attempted. *)
Lemma generate_unrecognised t response e t1 :
  callWith prompt t = (Returned response, t1) ->
  interpret response = Threw e ->
  Proxy.isNoImageError (Js.messageOrJson e) = false ->
  generate imageDataUrls prompt t = (Threw (Proxy.unrecoverable e), t1).
Proof.
  intros Hcall Hint Hno.
  unfold Proxy.generateStyleImage, bind, tryCatch, liftCompletion, throw.
  by rewrite Hparts, Hcall, Hint, Hno.
Qed.

End Generation.

(** The Vercel proxy on a response without image, for a prompt that names a
    style: the outcome is that of one attempt with the fallback prompt of
    that style. The image of the fallback is returned; a failure of the
    fallback is reported as the failure of both prompts, with its message. *)
Lemma vercel_fallback_once upstream imageDataUrls prompt imageParts t response e t1
  style :
  Proxy.imagePartsOf imageDataUrls = Returned imageParts ->
  Proxy.callGeminiWithRetry upstream (imageParts ++ [TextPart prompt]) t
    = (Returned response, t1) ->
  Vercel.processGeminiResponse response = Threw e ->
  Proxy.extractStyle prompt = Some style ->
  Vercel.generateStyleImage upstream imageDataUrls prompt t =
  match Proxy.callGeminiWithRetry upstream
          (imageParts ++ [TextPart (Proxy.getFallbackPrompt style)]) t1 with
  | (Returned fallbackResponse, t2) =>
      match Vercel.processGeminiResponse fallbackResponse with
      | Returned imageUrl => (Returned imageUrl, t2)
      | Threw fallbackError => (Threw (Proxy.bothFailed fallbackError), t2)
      end
  | (Threw fallbackError, t2) => (Threw (Proxy.bothFailed fallbackError), t2)
  end.
Proof.
  intros Hparts Hcall Hint Hstyle.
  eapply generate_fallback; eauto using vercel_failure_is_no_image.
Qed.

(** C2, at the input where the Netlify proxy departs from it. The upstream
    client refuses the primary prompt for the style Modern (a text and no
    image) and would answer the fallback prompt with an image. The Netlify
    interpreter reports the missing image, the style is recoverable from
    the prompt, and yet [generateStyleImage] issues no fallback call: it
    throws the failure for unrecoverable errors after the single primary
    call. *)
Theorem netlify_refusal_gets_no_fallback (stringify : Content -> string) :
  Netlify.processGeminiResponse stringify Fixtures.refusalResponse
    = Threw (Js.Error ("The AI model did not generate an image. Response: "
                       +:+ Js.dq +:+ "I cannot edit this image." +:+ Js.dq))
  /\ Proxy.extractStyle (App.stylePrompt "Modern") = Some "Modern"
  /\ Netlify.generateStyleImage stringify Fixtures.fallbackOnly [Fixtures.photo]
       (App.stylePrompt "Modern") []
     = (Threw (Js.Error
          ("The AI model failed to generate an image. Details: The AI model did not generate an image. Response: "
           +:+ Js.dq +:+ "I cannot edit this image." +:+ Js.dq)),
        [EUpstream Fixtures.modernRequest]).
Proof. repeat split. Qed.

(** The same input on the Vercel proxy: the fallback prompt is sent once,
    and its image is returned. *)
Lemma vercel_refusal_gets_fallback :
  Vercel.generateStyleImage Fixtures.fallbackOnly [Fixtures.photo]
    (App.stylePrompt "Modern") []
  = (Returned Fixtures.imageUrl,
     [EUpstream Fixtures.modernRequest; EUpstream Fixtures.modernFallbackRequest]).
Proof. reflexivity. Qed.

(** When the fallback is refused too, the Vercel proxy reports the failure
    of both prompts with the message of the second failure, after two
    calls. *)
Lemma vercel_both_refused :
  Vercel.generateStyleImage Fixtures.refusing [Fixtures.photo]
    (App.stylePrompt "Modern") []
  = (Threw (Js.Error
       ("The AI model failed with both original and fallback prompts. Last error: The AI model responded with text instead of an image: "
        +:+ Js.dq +:+ "I cannot edit this image." +:+ Js.dq)),
     [EUpstream Fixtures.modernRequest; EUpstream Fixtures.modernFallbackRequest]).
Proof. reflexivity. Qed.

(** On either proxy, a failure of the interpreter whose message does not
    hold the no-image text is not followed by a fallback. This is the case
    of every failure of the Netlify interpreter, unless the text of the
    response itself holds the no-image text. *)
Lemma interpreter_failure_unrecognised upstream interpret imageDataUrls prompt
  imageParts t response e t1 :
  Proxy.imagePartsOf imageDataUrls = Returned imageParts ->
  Proxy.callGeminiWithRetry upstream (imageParts ++ [TextPart prompt]) t
    = (Returned response, t1) ->
  interpret response = Threw e ->
  Proxy.isNoImageError (Js.messageOrJson e) = false ->
  Proxy.generateStyleImage upstream interpret imageDataUrls prompt t
  = (Threw (Proxy.unrecoverable e), t1).
Proof. intros. by eapply generate_unrecognised. Qed.

(** C6. For every style of the catalogue, [extractStyle] recovers the style
    from the prompt that [processStyle] builds for it. On the Vercel proxy,
    when the primary response holds no image and [extractStyle] finds no
    style in the prompt, [generateStyleImage] issues no further call and
    throws the failure of the interpreter unchanged. *)
Theorem extractStyle_recovers_catalogue :
  (forall style, In style App.STYLES ->
     Proxy.extractStyle (App.stylePrompt style) = Some style) /\
  (forall upstream imageDataUrls prompt imageParts t response e t1,
     Proxy.imagePartsOf imageDataUrls = Returned imageParts ->
     Proxy.callGeminiWithRetry upstream (imageParts ++ [TextPart prompt]) t
       = (Returned response, t1) ->
     Vercel.processGeminiResponse response = Threw e ->
     Proxy.extractStyle prompt = None ->
     Vercel.generateStyleImage upstream imageDataUrls prompt t = (Threw e, t1)).
Proof.
  split.
  - intros style Hin. cbn in Hin.
    repeat (destruct Hin as [<-|Hin]; [vm_compute; reflexivity|]). destruct Hin.
  - intros upstream imageDataUrls prompt imageParts t response e t1
      Hparts Hcall Hint Hstyle.
    eapply generate_no_style; eauto using vercel_failure_is_no_image.
Qed.

Lemma extractStyle_recovers_catalogue_witness :
  Proxy.extractStyle (App.stylePrompt "Bohemian") = Some "Bohemian" /\
  Vercel.generateStyleImage Fixtures.refusing [Fixtures.photo] "Make it cosy." []
  = (Threw (Js.Error
       ("The AI model responded with text instead of an image: "
        +:+ Js.dq +:+ "I cannot edit this image." +:+ Js.dq)),
     [EUpstream [Fixtures.photoPart; TextPart "Make it cosy."]]).
Proof.
  destruct extractStyle_recovers_catalogue as [Hid Hskip]. split.
  - apply Hid. cbn. tauto.
  - eapply Hskip; reflexivity.
Defined.

(** ** Failures that are not retried *)

Lemma retry_throws_nontransient upstream request t e :
  upstream (upstreamCalls t) request = inr e ->
  ~ Proxy.transient e ->
  Proxy.callGeminiWithRetry upstream request t = (Threw e, t ++ [EUpstream request]).
Proof.
  intros Hcall Hnt. unfold Proxy.callGeminiWithRetry.
  change (N.to_nat Proxy.maxRetries) with 3. rewrite retryLoop_step, Hcall.
  unfold Proxy.transient in Hnt.
  by destruct (Proxy.isInternalError (Js.messageOrJson e)).
Qed.

Lemma retry_throws_third_failure upstream request t e1 e2 e3 :
  let n := upstreamCalls t in
  upstream n request = inr e1 -> Proxy.transient e1 ->
  upstream (S n) request = inr e2 -> Proxy.transient e2 ->
  upstream (S (S n)) request = inr e3 ->
  Proxy.callGeminiWithRetry upstream request t =
  (Threw e3,
   t ++ [EUpstream request; ETimeout 1000; EUpstream request; ETimeout 2000;
         EUpstream request]).
Proof.
  intros n H1 T1 H2 T2 H3. unfold Proxy.callGeminiWithRetry.
  change (N.to_nat Proxy.maxRetries) with 3. unfold Proxy.transient in *.
  rewrite retryLoop_step. fold n. rewrite H1, T1. cbn [andb].
  change (1 <? Proxy.maxRetries)%N with true. cbn match.
  rewrite retryLoop_step, upstreamCalls_retry_step. fold n. rewrite H2, T2.
  change (1 + 1 <? Proxy.maxRetries)%N with true. cbn [andb].
  rewrite retryLoop_step, !upstreamCalls_retry_step. fold n. rewrite H3.
  change (1 + 1 + 1 <? Proxy.maxRetries)%N with false. rewrite andb_false_r.
  by rewrite <- !app_assoc.
Qed.

(** ** The response interpreter and the data URL *)

Lemma append_nil_l s : "" +:+ s = s.
Proof. reflexivity. Qed.

Lemma append_cons c s1 s2 : String c s1 +:+ s2 = String c (s1 +:+ s2).
Proof. reflexivity. Qed.

Lemma span_all_stop p word c rest :
  Js.all p word = true -> p c = false ->
  Js.span p (word +:+ String c rest) = (word, String c rest).
Proof.
  intros Hall Hc. induction word as [|a word IH].
  - rewrite append_nil_l. cbn. by rewrite Hc.
  - rewrite append_cons. cbn in *.
    apply andb_prop in Hall as [Ha Hall]. by rewrite Ha, IH.
Qed.

(** A data URL with a media type [image/] followed by word characters and a
    payload without line terminator parses back to its two components. *)
Lemma parseDataUrl_dataUrl word payload :
  word <> "" ->
  Js.all Js.isWordChar word = true ->
  Js.all (fun c => negb (Js.isLineTerminator c)) payload = true ->
  Proxy.parseDataUrl ("data:" +:+ ("image/" +:+ word) +:+ ";base64," +:+ payload)
  = Some ("image/" +:+ word, payload).
Proof.
  intros Hne Hword Hpayload. unfold Proxy.parseDataUrl.
  rewrite !append_cons, !append_nil_l. cbn [Js.stripPrefix Ascii.eqb Bool.eqb].
  rewrite span_all_stop by done.
  destruct word; [done|]. cbn [Js.stripPrefix Ascii.eqb Bool.eqb].
  by rewrite Hpayload.
Qed.

Lemma find_first_inline before part after :
  Forall (fun p => inlineData p = None) before ->
  Vercel.hasInlineData part = true ->
  List.find Vercel.hasInlineData (before ++ part :: after) = Some part.
Proof.
  intros Hbefore Hpart. induction Hbefore as [|p before Hp _ IH]; cbn.
  - by rewrite Hpart.
  - unfold Vercel.hasInlineData at 1. by rewrite Hp.
Qed.

Lemma find_no_inline ps :
  Forall (fun p => inlineData p = None) ps ->
  List.find Vercel.hasInlineData ps = None.
Proof.
  induction 1 as [|p ps Hp _ IH]; cbn; [done|].
  unfold Vercel.hasInlineData at 1. by rewrite Hp.
Qed.

(** C7, at the inputs where it fails, on the Vercel interpreter. A response
    without text yields a failure whose message holds a placeholder, not the
    empty text. An image whose media type is [image/svg+xml] yields a data
    URL that the pattern of [generateStyleImage] rejects. An image carried
    by the second candidate is not found. *)
Lemma processGeminiResponse_vercel_deviations :
  (Vercel.processGeminiResponse Fixtures.emptyResponse
   = Threw (Js.Error ("The AI model responded with text instead of an image: "
                      +:+ Js.dq +:+ "No text response received." +:+ Js.dq))
   /\ Vercel.processGeminiResponse Fixtures.emptyResponse
      <> Threw (Js.Error ("The AI model responded with text instead of an image: "
                          +:+ Js.dq +:+ "" +:+ Js.dq)))
  /\ (Vercel.processGeminiResponse Fixtures.svgResponse
      = Returned "data:image/svg+xml;base64,AAAA"
      /\ Proxy.parseDataUrl "data:image/svg+xml;base64,AAAA" = None)
  /\ (Vercel.processGeminiResponse Fixtures.secondCandidateResponse
      = Threw (Js.Error ("The AI model responded with text instead of an image: "
                         +:+ Js.dq +:+ "I cannot edit this image." +:+ Js.dq))).
Proof. repeat split. by vm_compute. Qed.

(** C7, amended. On the Vercel interpreter, for every response: when [part]
    is the first part with inline data among the parts of the first
    candidate, the result is the data URL made of [data:], the media type,
    [;base64,] and the payload of that part, and, whenever the media type is
    [image/] followed by word characters and the payload holds no line
    terminator, the pattern of [generateStyleImage] recovers that media type
    and that payload from the URL; when the parts of the first candidate
    hold no inline data, the result is a failure whose message is the
    no-image text followed by the text of the response between quotes, or
    by the placeholder [No text response received.] when the response has
    no text or an empty one. *)
Theorem processGeminiResponse_vercel_contract (response : Response) :
  (forall part blob, firstInlinePart response part blob ->
     Vercel.processGeminiResponse response
     = Returned ("data:" +:+ Js.tmpl (mimeType blob) +:+ ";base64,"
                 +:+ Js.tmpl (data blob))
     /\ (forall word payload,
           mimeType blob = Some ("image/" +:+ word) -> word <> "" ->
           Js.all Js.isWordChar word = true ->
           data blob = Some payload ->
           Js.all (fun c => negb (Js.isLineTerminator c)) payload = true ->
           Proxy.parseDataUrl ("data:" +:+ Js.tmpl (mimeType blob) +:+ ";base64,"
                               +:+ Js.tmpl (data blob))
           = Some ("image/" +:+ word, payload)))
  /\ (noInlinePart response ->
      Vercel.processGeminiResponse response
      = Threw (Js.Error
          ("The AI model responded with text instead of an image: " +:+ Js.dq
           +:+ (if Js.truthy (response_text response)
                then Js.tmpl (response_text response)
                else "No text response received.")
           +:+ Js.dq))).
Proof.
  split.
  - intros part blob (c & cs & ct & before & after & Hc & Hct & Hps & Hbefore & Hblob).
    split.
    + unfold Vercel.processGeminiResponse, Js.chain.
      rewrite Hc. cbn [head]. rewrite Hct, Hps.
      rewrite (find_first_inline before part after Hbefore)
        by (unfold Vercel.hasInlineData; by rewrite Hblob).
      by rewrite Hblob.
    + intros word payload -> Hne Hword -> Hpayload. cbn [Js.tmpl].
      by apply parseDataUrl_dataUrl.
  - intros Hnone. unfold Vercel.processGeminiResponse, Js.chain, Js.or.
    assert (Hfind :
      match
        match
          match match candidates response with
                | Some a => head a
                | None => None
                end with
          | Some a => content a
          | None => None
          end with
        | Some a => parts a
        | None => None
        end with
      | Some a => List.find Vercel.hasInlineData a
      | None => None
      end = None).
    { destruct (candidates response) as [[|c cs]|] eqn:Hc; [done| |done].
      cbn [head]. destruct (content c) as [ct|] eqn:Hct; [|done].
      destruct (parts ct) as [ps|] eqn:Hps; [|done].
      apply find_no_inline. eapply Hnone; eauto. }
    rewrite Hfind. by destruct (Js.truthy (response_text response)).
Qed.

Lemma processGeminiResponse_vercel_contract_witness :
  Vercel.processGeminiResponse Fixtures.imageResponse = Returned Fixtures.imageUrl
  /\ Proxy.parseDataUrl Fixtures.imageUrl = Some ("image/png", "AAAA")
  /\ Vercel.processGeminiResponse Fixtures.refusalResponse
     = Threw (Js.Error ("The AI model responded with text instead of an image: "
                        +:+ Js.dq +:+ "I cannot edit this image." +:+ Js.dq)).
Proof.
  destruct (processGeminiResponse_vercel_contract Fixtures.imageResponse)
    as [Hfound _].
  destruct (processGeminiResponse_vercel_contract Fixtures.refusalResponse)
    as [_ Hnone].
  destruct (Hfound (mkContentPart (Some (mkInlineData (Some "image/png") (Some "AAAA")))
                                  None)
                   (mkInlineData (Some "image/png") (Some "AAAA")))
    as [Hurl Hparse].
  { eexists _, [], _, [], []. repeat split; constructor. }
  split; [exact Hurl|]. split.
  - apply (Hparse "png" "AAAA"); (reflexivity || discriminate).
  - apply Hnone. intros c cs ct ps [= <- <-] [= <-] [= <-].
    repeat constructor.
Defined.

(** ** The Netlify interpreter *)

Lemma scanParts_first_inline before part after blob :
  Forall (fun p => inlineData p = None) before ->
  inlineData part = Some blob ->
  Netlify.scanParts (before ++ part :: after) =
  Some (if negb (Js.truthy (data blob))
        then Threw (Js.Error "Image data is empty")
        else Returned ("data:" +:+ Js.tmpl (mimeType blob) +:+ ";base64,"
                       +:+ Js.tmpl (data blob))).
Proof.
  intros Hbefore Hblob. induction Hbefore as [|p before Hp _ IH]; cbn.
  - rewrite Hblob. by destruct (negb _).
  - by rewrite Hp.
Qed.

(** C10. On the Netlify interpreter, when the first part with inline data
    among the parts of the first candidate has a missing or empty payload,
    the result is the failure [Image data is empty], not a data URL. The
    candidates are those of the response or, when it has none, those of its
    inner response. *)
Theorem netlify_empty_image_is_failure
  (stringify : Content -> string) (response : Response)
  (c : Candidate) (cs : list Candidate) (ct : Content)
  (before after : list ContentPart) (part : ContentPart) (blob : InlineData) :
  candidates response = Some (c :: cs)
    \/ (candidates response = None /\ inner_candidates response = Some (c :: cs)) ->
  content c = Some ct ->
  parts ct = Some (before ++ part :: after) ->
  Forall (fun p => inlineData p = None) before ->
  inlineData part = Some blob ->
  data blob = None \/ data blob = Some "" ->
  Netlify.processGeminiResponse stringify response
  = Threw (Js.Error "Image data is empty").
Proof.
  intros Hc Hct Hps Hbefore Hblob Hdata.
  unfold Netlify.processGeminiResponse, Js.chain.
  assert (Hcands :
    match candidates response with
    | Some cs0 => Some cs0
    | None => inner_candidates response
    end = Some (c :: cs)).
  { destruct Hc as [->|[-> ->]]; done. }
  rewrite Hcands. cbn [head]. rewrite Hct, Hps.
  rewrite (scanParts_first_inline before part after blob Hbefore Hblob).
  by destruct Hdata as [->| ->].
Qed.

Lemma netlify_empty_image_is_failure_witness :
  Netlify.processGeminiResponse (fun _ => "{}")
    (mkResponse
       (Some [mkCandidate (Some (mkContent (Some
          [mkContentPart None (Some "Here it is.");
           mkContentPart (Some (mkInlineData (Some "image/png") (Some ""))) None])))])
       None None)
  = Threw (Js.Error "Image data is empty").
Proof.
  eapply (netlify_empty_image_is_failure _ _ _ _ _
            [mkContentPart None (Some "Here it is.")] []);
    [left; reflexivity | reflexivity | reflexivity | | reflexivity | right; reflexivity].
  repeat constructor.
Defined.

(** ** Regeneration *)

(** C9. [handleRegenerateStyle] for a style whose entry is pending returns
    at once: the component state (the entry of that style and of every other
    style) and the trace of calls are unchanged, whatever the service would
    do. *)
Theorem regenerate_pending_is_noop
  (service : list string -> string -> Eff string)
  (style : string) (st : App.State) (t : Trace) (image : App.GeneratedImage) :
  App.generatedImages st !! style = Some image ->
  App.status image = App.pending ->
  App.handleRegenerateStyle service style st t = (st, t).
Proof.
  intros Hlookup Hstatus. unfold App.handleRegenerateStyle.
  destruct (App.uploadedImages st); [done|].
  by rewrite Hlookup; cbn; rewrite Hstatus.
Qed.

Lemma regenerate_pending_is_noop_witness :
  App.handleRegenerateStyle Fixtures.service "Modern" Fixtures.midRound []
  = (Fixtures.midRound, []).
Proof.
  apply (regenerate_pending_is_noop _ _ _ _ App.pendingImage); reflexivity.
Defined.

(** For comparison, a style whose entry is settled is regenerated: the
    service is called and the entry is replaced. *)
Lemma regenerate_settled_calls_service :
  let (st, t) :=
    App.handleRegenerateStyle Fixtures.service "Scandinavian" Fixtures.midRound [] in
  fetchCalls t = 1 /\ upstreamCalls t = 1 /\
  App.generatedImages st !! "Scandinavian"
  = Some (App.mkGeneratedImage App.done (Some Fixtures.imageUrl) None).
Proof. by vm_compute. Qed.

(** ** Validation of the input *)

Lemma imagePartsOf_invalid imageDataUrls :
  Exists (fun url => Proxy.parseDataUrl url = None) imageDataUrls ->
  Proxy.imagePartsOf imageDataUrls = Threw Proxy.invalidDataUrl.
Proof.
  induction imageDataUrls as [|url rest IH]; intros Hex.
  - by apply Exists_nil in Hex.
  - cbn [Proxy.imagePartsOf].
    destruct (Proxy.parseDataUrl url) as [[mimeType base64Data]|] eqn:Hurl; [|done].
    apply Exists_cons in Hex as [Hex|Hex]; [congruence|]. by rewrite IH.
Qed.

Lemma forallb_startsWith_false imageDataUrls :
  Exists (fun url => Js.startsWith url "data:image/" = false) imageDataUrls ->
  forallb (fun url => Js.startsWith url "data:image/") imageDataUrls = false.
Proof.
  induction 1 as [url rest Hurl|url rest _ IH]; cbn [forallb].
  - by rewrite Hurl.
  - by rewrite IH, andb_false_r.
Qed.

Lemma not_blank_truthy prompt :
  Js.isBlank prompt = false -> Js.truthy (Some prompt) = true.
Proof. by destruct prompt. Qed.

(** The proxy rejects a malformed data URL before any upstream call. *)
Lemma proxy_rejects_malformed upstream interpret imageDataUrls prompt t :
  Exists (fun url => Proxy.parseDataUrl url = None) imageDataUrls ->
  Proxy.generateStyleImage upstream interpret imageDataUrls prompt t
  = (Threw Proxy.invalidDataUrl, t).
Proof.
  intros Hex. unfold Proxy.generateStyleImage, bind, liftCompletion.
  by rewrite (imagePartsOf_invalid _ Hex).
Qed.

Lemma forallb_startsWith_true imageDataUrls :
  Forall (fun url => Js.startsWith url "data:image/" = true) imageDataUrls ->
  forallb (fun url => Js.startsWith url "data:image/") imageDataUrls = true.
Proof.
  induction 1 as [|url rest Hurl _ IH]; cbn [forallb]; [done|].
  by rewrite Hurl, IH.
Qed.

(** The proxy answers 500 to a request that passed its first checks but
    holds a malformed data URL, without any upstream call. *)
Lemma handler_rejects_malformed upstream interpret imageDataUrls text t :
  Js.isBlank text = false ->
  Forall (fun url => Js.startsWith url "data:image/" = true) imageDataUrls ->
  Exists (fun url => Proxy.parseDataUrl url = None) imageDataUrls ->
  Proxy.handler upstream interpret
    (mkHttpRequest "POST" (Some imageDataUrls) (Some text)) t
  = (Returned (mkHttpResponse 500
       (Some (mkJsonBody (Some "Image generation failed")
                (Some "Invalid image data URL format. Expected 'data:image/...;base64,...'")
                (Some false) None))), t).
Proof.
  intros Hprompt Hprefix Hex. unfold Proxy.handler. cbn [method images prompt].
  change (String.eqb "POST" "OPTIONS") with false.
  change (String.eqb "POST" "POST") with true. cbn [negb].
  destruct imageDataUrls as [|url rest]; [by apply Exists_nil in Hex|].
  unfold tryCatch, bind.
  rewrite (not_blank_truthy _ Hprompt), (forallb_startsWith_true _ Hprefix).
  cbn [negb Js.tmpl]. by rewrite (proxy_rejects_malformed _ _ _ _ _ Hex).
Qed.

(** C8, at the input where it fails. A photo whose URL starts with
    [data:image/] but does not match the pattern of the proxy passes the
    check of the browser service: the request is sent to the proxy, which
    rejects it. *)
Lemma malformed_prefixed_url_reaches_proxy :
  Js.startsWith Fixtures.malformedPhoto "data:image/" = true
  /\ Proxy.parseDataUrl Fixtures.malformedPhoto = None
  /\ Fixtures.service [Fixtures.malformedPhoto] (App.stylePrompt "Modern") []
     = (Threw (Js.Error
          "Failed to generate image: Image generation failed: Invalid image data URL format. Expected 'data:image/...;base64,...'"),
        [EFetch [Fixtures.malformedPhoto] (App.stylePrompt "Modern")]).
Proof. repeat split. Qed.

(** C8, amended. The browser service rejects, without sending any request
    and whatever [fetch] would do, an empty image set, an empty or blank
    prompt, and an image set with a URL that does not start with
    [data:image/]. The proxy rejects an image set with a URL that does not
    match the full pattern before any upstream call. For such a URL that
    starts with [data:image/], the request of the browser service reaches
    the proxy once, no upstream call is issued, and the failure of the
    proxy is reported. Nothing is retried. *)
Theorem invalid_input_is_rejected_early :
  (forall fetch prompt t,
     Client.generateStyleImage fetch [] prompt t
     = (Threw (Js.Error
          "Failed to generate image: At least one image is required for remodeling"),
        t))
  /\ (forall fetch imageDataUrls prompt t,
        imageDataUrls <> [] -> Js.isBlank prompt = true ->
        Client.generateStyleImage fetch imageDataUrls prompt t
        = (Threw (Js.Error
             "Failed to generate image: A prompt is required for image generation"),
           t))
  /\ (forall fetch imageDataUrls prompt t,
        Js.isBlank prompt = false ->
        Exists (fun url => Js.startsWith url "data:image/" = false) imageDataUrls ->
        Client.generateStyleImage fetch imageDataUrls prompt t
        = (Threw (Js.Error
             "Failed to generate image: All images must be valid data URLs"),
           t))
  /\ (forall upstream interpret imageDataUrls prompt t,
        Exists (fun url => Proxy.parseDataUrl url = None) imageDataUrls ->
        Proxy.generateStyleImage upstream interpret imageDataUrls prompt t
        = (Threw (Js.Error
             "Invalid image data URL format. Expected 'data:image/...;base64,...'"),
           t)
        /\ (Js.isBlank prompt = false ->
            Forall (fun url => Js.startsWith url "data:image/" = true) imageDataUrls ->
            Client.generateStyleImage
              (Client.fetchProxy true (Proxy.handler upstream interpret))
              imageDataUrls prompt t
            = (Threw (Js.Error
                 "Failed to generate image: Image generation failed: Invalid image data URL format. Expected 'data:image/...;base64,...'"),
               t ++ [EFetch imageDataUrls prompt]))).
Proof.
  split; [done|]. split; [|split].
  - intros fetch imageDataUrls prompt t Hne Hblank.
    unfold Client.generateStyleImage, tryCatch.
    destruct imageDataUrls; [done|]. by rewrite Hblank, orb_true_r.
  - intros fetch imageDataUrls prompt t Hblank Hex.
    unfold Client.generateStyleImage, tryCatch.
    destruct imageDataUrls as [|url rest]; [by apply Exists_nil in Hex|].
    by rewrite Hblank, (not_blank_truthy _ Hblank), (forallb_startsWith_false _ Hex).
  - intros upstream interpret imageDataUrls prompt t Hex.
    split; [by apply proxy_rejects_malformed|]. intros Hblank Hprefix.
    unfold Client.generateStyleImage, tryCatch, bind.
    destruct imageDataUrls as [|url rest] eqn:Hurls; [by apply Exists_nil in Hex|].
    rewrite Hblank, (not_blank_truthy _ Hblank), (forallb_startsWith_true _ Hprefix).
    cbn [negb orb]. unfold Client.fetchProxy, bind, emit.
    by rewrite (handler_rejects_malformed _ _ _ _ _ Hblank Hprefix Hex).
Qed.

Lemma invalid_input_is_rejected_early_witness :
  Fixtures.service [Fixtures.photo] "   " []
  = (Threw (Js.Error
       "Failed to generate image: A prompt is required for image generation"), [])
  /\ Fixtures.service ["https://example.com/room.png"] (App.stylePrompt "Modern") []
     = (Threw (Js.Error
          "Failed to generate image: All images must be valid data URLs"), [])
  /\ Vercel.generateStyleImage Fixtures.generous [Fixtures.malformedPhoto]
       (App.stylePrompt "Modern") []
     = (Threw (Js.Error
          "Invalid image data URL format. Expected 'data:image/...;base64,...'"), [])
  /\ Fixtures.service [Fixtures.malformedPhoto] (App.stylePrompt "Modern") []
     = (Threw (Js.Error
          "Failed to generate image: Image generation failed: Invalid image data URL format. Expected 'data:image/...;base64,...'"),
        [] ++ [EFetch [Fixtures.malformedPhoto] (App.stylePrompt "Modern")]).
Proof.
  destruct invalid_input_is_rejected_early as (_ & Hblank & Hprefix & Hproxy).
  split; [apply Hblank; [discriminate|reflexivity]|].
  split; [apply Hprefix; [reflexivity|]; by left|].
  destruct (Hproxy Fixtures.generous Vercel.processGeminiResponse
              [Fixtures.malformedPhoto] (App.stylePrompt "Modern") [])
    as [Hreject Hreach]; [by left|].
  split; [exact Hreject|].
  apply Hreach; [reflexivity|]. by repeat constructor.
Defined.

(** ** The generation round *)

Section Round.

Import App.

Lemma insert_split (ws : list Worker) i w w' :
  ws !! i = Some w ->
  exists before after, ws = before ++ w :: after /\ <[i:=w']> ws = before ++ w' :: after.
Proof.
  intros Hi. exists (take i ws), (drop (S i) ws). split.
  - by rewrite take_drop_middle.
  - apply insert_take_drop. by eapply lookup_lt_Some.
Qed.

Lemma awaitingStyles_middle before w after :
  awaitingStyles (before ++ w :: after) =
  awaitingStyles before
  ++ match w with Awaiting style => [style] | _ => [] end
  ++ awaitingStyles after.
Proof.
  unfold awaitingStyles. rewrite omap_app. f_equal. by destruct w.
Qed.

Lemma weight_middle before w after :
  sum_list_with weight (before ++ w :: after) =
  sum_list_with weight before + weight w + sum_list_with weight after.
Proof. rewrite sum_list_with_app. cbn. lia. Qed.

Lemma exited_middle before w w' after :
  w' <> Exited ->
  Exited ∈ before ++ w' :: after -> Exited ∈ before ++ w :: after.
Proof.
  intros Hw'. rewrite !elem_of_app, !elem_of_cons.
  intros [H|[H|H]]; [by left|by destruct Hw'|by right; right].
Qed.

Lemma settle_terminal style result images :
  isTerminal (settle style result images !! style).
Proof.
  destruct result; cbn [settle]; rewrite lookup_insert_eq;
    eexists; (split; [reflexivity|]); cbn; auto.
Qed.

Lemma settle_preserves_terminal style result images other :
  isTerminal (images !! other) ->
  isTerminal (settle style result images !! other).
Proof.
  intros Hother. destruct (decide (style = other)) as [->|Hne].
  - apply settle_terminal.
  - by destruct result; cbn [settle]; rewrite lookup_insert_ne.
Qed.

Lemma invariant_step r r' : invariant r -> step r r' -> invariant r'.
Proof.
  intros [Hpool Hexit Hstyles Hsettled] Hstep.
  destruct Hstep as [i r Hi Hq|i r style rest Hi Hq Hne|i r rest Hi Hq
                    |i r style result Hi];
    (split; cbn [workers stylesQueue session settled]);
    try (rewrite length_insert; exact Hpool); try exact Hpool; try exact Hsettled.
  - done.
  - destruct (insert_split _ _ _ Exited Hi) as (before & after & Hws & ->).
    rewrite Hws, Hq in Hstyles. rewrite awaitingStyles_middle in *. exact Hstyles.
  - destruct (insert_split _ _ _ (Awaiting style) Hi) as (before & after & Hws & ->).
    intros Hin. rewrite Hq in Hexit. discriminate Hexit.
    rewrite Hws. by apply (exited_middle before Looping (Awaiting style) after).
  - destruct (insert_split _ _ _ (Awaiting style) Hi) as (before & after & Hws & ->).
    rewrite Hws, Hq in Hstyles. rewrite awaitingStyles_middle in *.
    cbn [List.filter] in Hstyles. unfold nonEmpty at 1 in Hstyles.
    destruct (String.eqb_spec style "") as [|_]; [done|]. cbn [negb] in Hstyles.
    rewrite <- Hstyles. cbn [app]. solve_Permutation.
  - intros Hin. rewrite Hq in Hexit. discriminate (Hexit Hin).
  - rewrite Hq in Hstyles. exact Hstyles.
  - destruct (insert_split _ _ _ Looping Hi) as (before & after & Hws & ->).
    intros Hin. apply Hexit. rewrite Hws.
    by apply (exited_middle before (Awaiting style) Looping after).
  - destruct (insert_split _ _ _ Looping Hi) as (before & after & Hws & ->).
    rewrite Hws in Hstyles. rewrite awaitingStyles_middle in *.
    rewrite <- Hstyles. cbn [app]. solve_Permutation.
  - intros other [Hother| ->%list_elem_of_singleton]%elem_of_app.
    + by apply settle_preserves_terminal, Hsettled.
    + apply settle_terminal.
Qed.

Lemma invariant_start st r0 : handleGenerateClick st = Some r0 -> invariant r0.
Proof.
  unfold handleGenerateClick. destruct (uploadedImages st); [done|].
  intros [= <-]. split; cbn [workers stylesQueue session settled].
  - reflexivity.
  - by intros ?%(elem_of_replicate_inv _ concurrencyLimit).
  - reflexivity.
  - by intros style ?%elem_of_nil.
Qed.

Lemma invariant_steps st r0 r :
  handleGenerateClick st = Some r0 -> steps r0 r -> invariant r.
Proof.
  intros Hstart Hsteps.
  induction Hsteps as [|r1 r2 r3 _ IH Hstep]; eauto using invariant_start, invariant_step.
Qed.

End Round.

Section RoundProperties.

Import App.

Lemma advance_step i result r r' : advance i result r = Some r' -> step r r'.
Proof.
  unfold advance. destruct (workers r !! i) as [[|style|]|] eqn:Hi; try done.
  - destruct (stylesQueue r) as [|style rest] eqn:Hq.
    + intros [= <-]. by apply step_exit.
    + unfold nonEmpty. destruct (String.eqb_spec style "") as [->|Hne]; cbn [negb].
      * intros [= <-]. by eapply step_skip.
      * intros [= <-]. by eapply step_start.
  - intros [= <-]. by apply step_settle.
Qed.

Lemma run_steps schedule r r' : run schedule r = Some r' -> steps r r'.
Proof.
  revert r. induction schedule as [|[i result] rest IH]; intros r; cbn [run].
  - intros [= <-]. apply steps_refl.
  - destruct (advance i result r) as [r1|] eqn:Hadv; [|done].
    intros Hrun. apply advance_step in Hadv. specialize (IH _ Hrun).
    clear Hrun. induction IH as [|r2 r3 r4 _ IH' Hstep].
    + eapply steps_step; [apply steps_refl|done].
    + eapply steps_step; [exact (IH' Hadv)|done].
Qed.

Lemma step_measure r r' : step r r' -> measure r' < measure r.
Proof.
  intros Hstep. unfold measure.
  destruct Hstep as [i r Hi Hq|i r style rest Hi Hq Hne|i r rest Hi Hq
                    |i r style result Hi];
    cbn [workers stylesQueue]; rewrite ?Hq; cbn [length];
    try (destruct (insert_split _ _ _ Exited Hi) as (before & after & -> & ->));
    try (destruct (insert_split _ _ _ (Awaiting style) Hi)
           as (before & after & -> & ->));
    try (destruct (insert_split _ _ _ Looping Hi) as (before & after & -> & ->));
    rewrite ?weight_middle; cbn [weight]; lia.
Qed.

Lemma steps_measure r r' : steps r r' -> measure r' <= measure r.
Proof.
  induction 1 as [|r1 r2 r3 _ IH Hstep]; [done|].
  apply step_measure in Hstep. lia.
Qed.

Lemma round_progress r : ~ completed r -> exists r', step r r'.
Proof.
  intros Hnot. apply not_Forall_Exists in Hnot; [|apply _].
  apply Exists_exists in Hnot as (w & [i Hi]%list_elem_of_lookup_1 & Hw).
  cbn in Hw. destruct w as [|style|]; [| |done].
  - destruct (stylesQueue r) as [|style rest] eqn:Hq.
    + eexists. by apply (step_exit i).
    + destruct (decide (style = "")) as [->|Hne].
      * eexists. by eapply (step_skip i).
      * eexists. by eapply (step_start i).
  - eexists. apply (step_settle i r style (Returned "")). exact Hi.
Qed.

Lemma completed_idle r :
  completed r -> awaitingStyles (workers r) = [] /\ inFlight r = 0.
Proof.
  unfold completed, inFlight. generalize (workers r) as ws.
  induction 1 as [|w ws -> _ IH]; [done|]. exact IH.
Qed.

Lemma completed_queue_empty r :
  invariant r -> completed r -> stylesQueue r = [].
Proof.
  intros [Hpool Hexit _ _] Hdone. apply Hexit.
  unfold completed in Hdone. destruct (workers r) as [|w ws]; [done|].
  apply Forall_cons in Hdone as [-> _]. by left.
Qed.

Lemma completed_settled r :
  invariant r -> completed r -> settled r ≡ₚ STYLES.
Proof.
  intros Hinv Hdone. pose proof (inv_styles r Hinv) as Hstyles.
  rewrite (completed_queue_empty r Hinv Hdone) in Hstyles.
  destruct (completed_idle r Hdone) as [Hidle _]. rewrite Hidle in Hstyles.
  cbn in Hstyles. by rewrite app_nil_r in Hstyles.
Qed.

End RoundProperties.

(** C3. In every state of a round started by [handleGenerateClick], at most
    two tasks are in flight. The round runs to completion: every step
    lowers a measure that starts at 20, a state in which some worker has not
    returned has a next step, and once both workers have returned the queue
    is empty, no task is in flight, and the tasks settled are those of the
    styles of the catalogue, each once. *)
Theorem round_bounded_concurrency (st : App.State) (r0 r : App.Round) :
  App.handleGenerateClick st = Some r0 ->
  App.steps r0 r ->
  App.inFlight r <= 2
  /\ App.measure r <= 20
  /\ (forall r', App.step r r' -> App.measure r' < App.measure r)
  /\ (~ App.completed r -> exists r', App.step r r')
  /\ (App.completed r ->
      App.stylesQueue r = [] /\ App.inFlight r = 0 /\ App.settled r ≡ₚ App.STYLES).
Proof.
  intros Hstart Hsteps.
  pose proof (invariant_steps st r0 r Hstart Hsteps) as Hinv.
  split; [|split; [|split; [|split]]].
  - unfold App.inFlight. pose proof (App.inv_pool r Hinv) as Hpool.
    pose proof (List.filter_length_le App.isAwaiting (App.workers r)) as Hle.
    unfold App.concurrencyLimit in Hpool. lia.
  - apply steps_measure in Hsteps.
    unfold App.handleGenerateClick in Hstart.
    destruct (App.uploadedImages st); [done|]. injection Hstart as <-.
    exact Hsteps.
  - intros r'. apply step_measure.
  - apply round_progress.
  - intros Hdone. split; [by apply completed_queue_empty|].
    split; [by apply completed_idle|by apply completed_settled].
Qed.

Lemma round_bounded_concurrency_witness :
  match App.run Fixtures.alternating Fixtures.startedRound with
  | Some r =>
      App.completed r /\ App.inFlight r <= 2 /\ App.settled r ≡ₚ App.STYLES
  | None => False
  end.
Proof.
  destruct (App.run Fixtures.alternating Fixtures.startedRound) as [r|] eqn:Hrun;
    [|by vm_compute in Hrun].
  destruct (round_bounded_concurrency Fixtures.midRound Fixtures.startedRound r
              eq_refl (run_steps _ _ _ Hrun))
    as (Hflight & _ & _ & _ & Hdone).
  assert (Hcompleted : App.completed r).
  { vm_compute in Hrun. injection Hrun as <-. by repeat constructor. }
  split; [exact Hcompleted|]. split; [exact Hflight|].
  by destruct (Hdone Hcompleted) as (_ & _ & Hsettled).
Defined.

(** C4. The round that [handleGenerateClick] starts maps every style of the
    catalogue to a pending entry; in every state it can reach in which both
    workers have returned, every style of the catalogue is mapped to an
    entry whose status is done or error, so none is pending. *)
Theorem round_session_settles (st : App.State) (r0 : App.Round) :
  App.handleGenerateClick st = Some r0 ->
  (forall style, In style App.STYLES ->
     App.session r0 !! style = Some App.pendingImage)
  /\ (forall r, App.steps r0 r -> App.completed r ->
      forall style, In style App.STYLES ->
        App.isTerminal (App.session r !! style)
        /\ App.status <$> App.session r !! style <> Some App.pending).
Proof.
  intros Hstart. split.
  - unfold App.handleGenerateClick in Hstart.
    destruct (App.uploadedImages st); [done|]. injection Hstart as <-.
    intros style Hin. cbn in Hin.
    repeat (destruct Hin as [<-|Hin]; [by vm_compute|]). destruct Hin.
  - intros r Hsteps Hdone style Hin.
    pose proof (invariant_steps st r0 r Hstart Hsteps) as Hinv.
    assert (Hterminal : App.isTerminal (App.session r !! style)).
    { apply (App.inv_settled r Hinv).
      rewrite (completed_settled r Hinv Hdone). by apply list_elem_of_In. }
    split; [exact Hterminal|].
    destruct Hterminal as (g & -> & [Hg|Hg]); cbn; rewrite Hg; discriminate.
Qed.

Lemma round_session_settles_witness :
  App.session Fixtures.startedRound !! "Farmhouse" = Some App.pendingImage
  /\ match App.run Fixtures.alternating Fixtures.startedRound with
     | Some r => App.isTerminal (App.session r !! "Farmhouse")
     | None => False
     end.
Proof.
  destruct (round_session_settles Fixtures.midRound Fixtures.startedRound eq_refl)
    as [Hpending Hsettles].
  split; [apply Hpending; cbn; tauto|].
  destruct (App.run Fixtures.alternating Fixtures.startedRound) as [r|] eqn:Hrun;
    [|by vm_compute in Hrun].
  apply Hsettles; [exact (run_steps _ _ _ Hrun)| |cbn; tauto].
  vm_compute in Hrun. injection Hrun as <-. by repeat constructor.
Defined.

(** * Further properties *)

(** ** Texts and data URLs *)

Lemma append_assoc (a b c : string) : (a +:+ b) +:+ c = a +:+ (b +:+ c).
Proof.
  induction a as [|x a IH]; [done|]. by rewrite !append_cons, IH.
Qed.

Lemma prefix_append p s : String.prefix p (p +:+ s) = true.
Proof.
  induction p as [|a p IH]; [by destruct s|].
  rewrite append_cons. cbn. by destruct (Ascii.ascii_dec a a).
Qed.

Lemma stripPrefix_Some p s rest : Js.stripPrefix p s = Some rest -> s = p +:+ rest.
Proof.
  revert s. induction p as [|a p IH]; intros s; cbn.
  - by intros [= ->].
  - destruct s as [|b s]; [done|].
    destruct (Ascii.eqb_spec a b) as [->|]; [|done].
    intros Hs. by rewrite append_cons, <- (IH _ Hs).
Qed.

Lemma span_Some p s word rest :
  Js.span p s = (word, rest) -> s = word +:+ rest /\ Js.all p word = true.
Proof.
  revert word rest. induction s as [|c s IH]; intros word rest; cbn.
  - by intros [= <- <-].
  - destruct (p c) eqn:Hc.
    + destruct (Js.span p s) as [w r]. intros [= <- <-].
      destruct (IH w r eq_refl) as [-> Hw]. cbn. by rewrite Hc, Hw.
    + by intros [= <- <-].
Qed.

(** X1. The pattern of [generateStyleImage] accepts exactly the data URLs
    made of [data:], a media type [image/] followed by word characters,
    [;base64,] and a payload without line terminator, and its two groups
    are that media type and that payload. *)
Theorem parseDataUrl_exact (url mimeType payload : string) :
  Proxy.parseDataUrl url = Some (mimeType, payload)
  <-> url = dataUrl mimeType payload
      /\ imageMediaType mimeType /\ singleLine payload.
Proof.
  split.
  - unfold Proxy.parseDataUrl.
    destruct (Js.stripPrefix "data:image/" url) as [rest|] eqn:Hurl; [|done].
    destruct (Js.span Js.isWordChar rest) as [word rest'] eqn:Hspan.
    destruct word as [|c word]; [done|].
    destruct (Js.stripPrefix ";base64," rest') as [p|] eqn:Hrest; [|done].
    destruct (Js.all _ p) eqn:Hp; [|done]. intros [= <- <-].
    apply stripPrefix_Some in Hurl, Hrest. apply span_Some in Hspan as [-> Hword].
    subst. split; [|split; [by eexists|done]].
    unfold dataUrl. change "data:image/" with ("data:" +:+ "image/").
    by rewrite !append_assoc.
  - intros (-> & (word & -> & Hne & Hword) & Hpayload).
    by apply parseDataUrl_dataUrl.
Qed.

(** X2. [imagePartsOf] returns exactly when every URL matches the pattern,
    with one inline part per URL, in order, holding its media type and its
    payload; it throws exactly when some URL does not match, and then the
    failure is the invalid-format error. *)
Theorem imagePartsOf_exact (imageDataUrls : list string) :
  (forall imageParts,
     Proxy.imagePartsOf imageDataUrls = Returned imageParts
     <-> Forall2 (fun url part =>
                    exists mimeType payload,
                      Proxy.parseDataUrl url = Some (mimeType, payload)
                      /\ part = InlinePart mimeType payload)
                 imageDataUrls imageParts)
  /\ (forall e,
        Proxy.imagePartsOf imageDataUrls = Threw e
        <-> e = Proxy.invalidDataUrl
            /\ Exists (fun url => Proxy.parseDataUrl url = None) imageDataUrls).
Proof.
  induction imageDataUrls as [|url rest [IHok IHerr]]; cbn [Proxy.imagePartsOf].
  - split.
    + intros imageParts. split.
      * intros [= <-]. constructor.
      * by intros ->%Forall2_nil_inv_l.
    + intros e. split; [done|]. by intros [_ ?%Exists_nil].
  - destruct (Proxy.parseDataUrl url) as [[mimeType payload]|] eqn:Hurl.
    + destruct (Proxy.imagePartsOf rest) as [ps|e'] eqn:Hrest.
      * split.
        -- intros imageParts. split.
           ++ intros [= <-]. constructor; [by eauto|]. by apply IHok.
           ++ intros (part & parts & (m & d & Hm & ->) & Hparts & ->)%Forall2_cons_inv_l.
              rewrite Hurl in Hm. injection Hm as <- <-.
              apply IHok in Hparts. by injection Hparts as <-.
        -- intros e. split; [done|].
           intros [_ [Hex|Hex]%Exists_cons]; [congruence|].
           by pose proof (proj2 (IHerr Proxy.invalidDataUrl) (conj eq_refl Hex)).
      * split.
        -- intros imageParts. split; [done|].
           intros (part & parts & _ & Hparts & ->)%Forall2_cons_inv_l.
           by apply IHok in Hparts.
        -- intros e. split.
           ++ intros [= <-]. destruct (proj1 (IHerr e') eq_refl) as [-> Hex].
              split; [done|]. by right.
           ++ intros [-> _]. by destruct (proj1 (IHerr e') eq_refl) as [-> _].
    + split.
      * intros imageParts. split; [done|].
        intros (part & parts & (m & d & Hm & _) & _)%Forall2_cons_inv_l. congruence.
      * intros e. split.
        -- intros [= <-]. split; [done|]. by left.
        -- by intros [-> _].
Qed.

Lemma parseDataUrl_prefix url groups :
  Proxy.parseDataUrl url = Some groups -> Js.startsWith url "data:image/" = true.
Proof.
  unfold Proxy.parseDataUrl.
  destruct (Js.stripPrefix "data:image/" url) as [r|] eqn:Hr; [|done].
  intros _. apply stripPrefix_Some in Hr as ->. apply prefix_append.
Qed.

Lemma imagePartsOf_prefix (imageDataUrls : list string) (imageParts : list Part) :
  Proxy.imagePartsOf imageDataUrls = Returned imageParts ->
  forallb (fun url => Js.startsWith url "data:image/") imageDataUrls = true.
Proof.
  revert imageParts.
  induction imageDataUrls as [|url rest IH]; intros imageParts; [done|].
  cbn [Proxy.imagePartsOf forallb].
  destruct (Proxy.parseDataUrl url) as [[m d]|] eqn:Hurl; [|done].
  destruct (Proxy.imagePartsOf rest) as [ps|]; [|done]. intros _.
  by rewrite (parseDataUrl_prefix _ _ Hurl), (IH ps).
Qed.

(** X3. The checks are layered consistently: an image set that
    [imagePartsOf] accepts passes the prefix check that the handler of the
    proxy and the browser service apply first. *)
Theorem accepted_images_pass_prefix_check
  (imageDataUrls : list string) (imageParts : list Part) :
  Proxy.imagePartsOf imageDataUrls = Returned imageParts ->
  forallb (fun url => Js.startsWith url "data:image/") imageDataUrls = true.
Proof. apply imagePartsOf_prefix. Qed.

Lemma accepted_images_pass_prefix_check_witness :
  forallb (fun url => Js.startsWith url "data:image/")
          [Fixtures.photo; "data:image/jpeg;base64,QUJD"] = true.
Proof.
  by apply (accepted_images_pass_prefix_check _
              [Fixtures.photoPart; InlinePart "image/jpeg" "QUJD"]).
Defined.

Lemma find_none_all {A} (f : A -> bool) (l : list A) :
  (forall x, In x l -> f x = false) -> List.find f l = None.
Proof.
  induction l as [|x l IH]; intros Hall; [done|]. cbn.
  rewrite (Hall x) by (by left). apply IH. intros y Hy. apply Hall. by right.
Qed.

Lemma matchStyleHere_None s :
  Proxy.matchStyleHere s = None
  <-> forall style, In style Proxy.styleAlternatives ->
        String.prefix (stylePattern style) s = false.
Proof.
  split.
  - intros Hnone style Hin. exact (List.find_none _ _ Hnone style Hin).
  - apply find_none_all.
Qed.

(** X4. [extractStyle] finds a style exactly when the prompt holds the text
    [in a <style> design style] for some style of the catalogue: the style
    it returns is one of the catalogue whose text occurs in the prompt, and
    it returns null exactly when no such text occurs for any style. *)
Theorem extractStyle_exact (prompt : string) :
  (forall style, Proxy.extractStyle prompt = Some style ->
     In style App.STYLES /\ Js.includes prompt (stylePattern style) = true)
  /\ (Proxy.extractStyle prompt = None
      <-> forall style, In style App.STYLES ->
            Js.includes prompt (stylePattern style) = false).
Proof.
  change App.STYLES with Proxy.styleAlternatives.
  induction prompt as [|c rest [IHsome IHnone]]; cbn [Proxy.extractStyle Js.includes].
  - destruct (Proxy.matchStyleHere "") as [s|] eqn:Hm.
    + apply List.find_some in Hm as [Hin Hs]. split.
      * intros style [= <-]. split; [done|]. by apply orb_true_iff; left.
      * split; [done|]. intros Hall. specialize (Hall s Hin).
        apply orb_false_iff in Hall as [Hall _].
        unfold stylePattern in Hall. congruence.
    + split; [done|]. split; [|done]. intros _ style Hin.
      by rewrite (proj1 (matchStyleHere_None "") Hm style Hin).
  - destruct (Proxy.matchStyleHere (String c rest)) as [s|] eqn:Hm.
    + apply List.find_some in Hm as [Hin Hs]. split.
      * intros style [= <-]. split; [done|]. by apply orb_true_iff; left.
      * split; [done|]. intros Hall. specialize (Hall s Hin).
        apply orb_false_iff in Hall as [Hall _].
        unfold stylePattern in Hall. congruence.
    + split.
      * intros style Hstyle. destruct (IHsome style Hstyle) as [Hin Hinc].
        split; [done|]. by rewrite Hinc, orb_true_r.
      * rewrite IHnone. split.
        -- intros Hall style Hin.
           by rewrite (proj1 (matchStyleHere_None _) Hm style Hin), (Hall style Hin).
        -- intros Hall style Hin. specialize (Hall style Hin).
           by apply orb_false_iff in Hall as [_ Hall].
Qed.

Lemma extractStyle_exact_witness :
  Js.includes "A kitchen in a Farmhouse design style, please." (stylePattern "Farmhouse")
  = true
  /\ Proxy.extractStyle "A kitchen in the Farmhouse style, please." = None.
Proof.
  split.
  - by apply (extractStyle_exact "A kitchen in a Farmhouse design style, please.").
  - apply (extractStyle_exact "A kitchen in the Farmhouse style, please.").
    intros style Hin. cbn in Hin.
    repeat (destruct Hin as [<-|Hin]; [by vm_compute|]). destruct Hin.
Defined.

(** ** The calls of one generation *)

Lemma callGeminiWithRetry_events upstream request t :
  exists events,
    (Proxy.callGeminiWithRetry upstream request t).2 = t ++ events
    /\ retryEvents request events.
Proof.
  unfold Proxy.callGeminiWithRetry, retryEvents.
  change (N.to_nat Proxy.maxRetries) with 3. rewrite retryLoop_step.
  destruct (upstream (upstreamCalls t) request) as [r1|e1]; [by eauto|].
  destruct (Proxy.isInternalError (Js.messageOrJson e1)); [|by eauto].
  change (1 <? Proxy.maxRetries)%N with true. cbn [andb].
  change (Proxy.initialDelay * 2 ^ (1 - 1))%N with 1000%N.
  rewrite retryLoop_step, upstreamCalls_retry_step.
  destruct (upstream (S (upstreamCalls t)) request) as [r2|e2];
    [rewrite <- !app_assoc; by eauto|].
  destruct (Proxy.isInternalError (Js.messageOrJson e2));
    [|rewrite <- !app_assoc; by eauto].
  change (1 + 1 <? Proxy.maxRetries)%N with true. cbn [andb].
  change (Proxy.initialDelay * 2 ^ (1 + 1 - 1))%N with 2000%N.
  rewrite retryLoop_step, !upstreamCalls_retry_step.
  destruct (upstream (S (S (upstreamCalls t))) request) as [r3|e3];
    [rewrite <- !app_assoc; by eauto 6|].
  change (1 + 1 + 1 <? Proxy.maxRetries)%N with false. rewrite andb_false_r.
  rewrite <- !app_assoc. by eauto 6.
Qed.

(** What one generation adds to the trace: nothing when the image set is
    rejected; otherwise the events of the primary attempt, followed or not
    by those of one fallback attempt for the style found in the prompt. *)
Lemma generateStyleImage_events upstream interpret imageDataUrls prompt t :
  exists events,
    (Proxy.generateStyleImage upstream interpret imageDataUrls prompt t).2
    = t ++ events
    /\ (events = []
        \/ exists imageParts primary,
             Proxy.imagePartsOf imageDataUrls = Returned imageParts
             /\ retryEvents (imageParts ++ [TextPart prompt]) primary
             /\ (events = primary
                 \/ exists style fallback,
                      In style App.STYLES
                      /\ retryEvents
                           (imageParts ++ [TextPart (Proxy.getFallbackPrompt style)])
                           fallback
                      /\ events = primary ++ fallback)).
Proof.
  unfold Proxy.generateStyleImage, bind, tryCatch, liftCompletion, throw.
  destruct (Proxy.imagePartsOf imageDataUrls) as [imageParts|e0] eqn:Hparts;
    [|exists []; by rewrite app_nil_r; auto].
  destruct (callGeminiWithRetry_events upstream (imageParts ++ [TextPart prompt]) t)
    as (primary & Ht1 & Hprimary).
  destruct (Proxy.callGeminiWithRetry upstream (imageParts ++ [TextPart prompt]) t)
    as [[response|error] t1]; cbn [snd] in Ht1; subst t1;
    [destruct (interpret response) as [imageUrl|error];
       [exists primary; by eauto 8|]|].
  all: destruct (Proxy.isNoImageError _); [|exists primary; by eauto 8].
  all: destruct (Proxy.extractStyle prompt) as [style|] eqn:Hstyle;
    [|exists primary; by eauto 8].
  all: pose proof (extractStyle_alternative _ _ Hstyle) as Hin.
  all: rewrite (extractStyle_truthy _ _ Hstyle); cbn [negb Js.tmpl].
  all: destruct (callGeminiWithRetry_events upstream
                   (imageParts ++ [TextPart (Proxy.getFallbackPrompt style)])
                   (t ++ primary)) as (fallback & Ht2 & Hfallback).
  all: exists (primary ++ fallback); split; [|by eauto 12].
  all: destruct (Proxy.callGeminiWithRetry upstream _ (t ++ primary))
         as [[r2|e2] t2]; cbn [snd] in Ht2; subst t2; rewrite <- app_assoc;
         [|done].
  all: by destruct (interpret r2).
Qed.

Lemma retryEvents_budget request events :
  retryEvents request events ->
  1 <= upstreamCalls events <= 3 /\ (waited events <= 3000)%N
  /\ fetchCalls events = 0
  /\ forall other, In (EUpstream other) events -> other = request.
Proof.
  intros [->|[->| ->]]; (split; [cbn; lia|]); (split; [by cbn|]);
    (split; [done|]); intros other Hin; cbn in Hin;
    repeat (destruct Hin as [Hin|Hin]; [by simplify_eq|]); done.
Qed.

Lemma waited_app t1 t2 : waited (t1 ++ t2) = (waited t1 + waited t2)%N.
Proof.
  induction t1 as [|[request|ms|images prompt] t1 IH]; cbn; [done|done| |done].
  rewrite IH. lia.
Qed.

Lemma generateStyleImage_bounds
  (upstream : Upstream) (interpret : Response -> Completion string)
  (imageDataUrls : list string) (prompt : string) (t : Trace) :
  exists events,
    (Proxy.generateStyleImage upstream interpret imageDataUrls prompt t).2
    = t ++ events
    /\ upstreamCalls events <= 6
    /\ (waited events <= 6000)%N
    /\ fetchCalls events = 0
    /\ forall request, In (EUpstream request) events ->
         exists imageParts,
           Proxy.imagePartsOf imageDataUrls = Returned imageParts
           /\ (request = imageParts ++ [TextPart prompt]
               \/ exists style, In style App.STYLES
                    /\ request
                       = imageParts ++ [TextPart (Proxy.getFallbackPrompt style)]).
Proof.
  destruct (generateStyleImage_events upstream interpret imageDataUrls prompt t)
    as (events & Ht & Hshape).
  exists events. split; [exact Ht|].
  destruct Hshape as [->|(imageParts & primary & Hparts & Hprimary & Hrest)].
  { split; [cbn; lia|]. split; [by cbn|]. split; [done|]. by intros request []. }
  destruct (retryEvents_budget _ _ Hprimary) as ([_ Hc1] & Hw1 & Hf1 & Hr1).
  destruct Hrest as [->|(style & fallback & Hin & Hfallback & ->)].
  - split; [lia|]. split; [lia|]. split; [done|]. intros request Hreq.
    exists imageParts. split; [done|]. left. by apply Hr1.
  - destruct (retryEvents_budget _ _ Hfallback) as ([_ Hc2] & Hw2 & Hf2 & Hr2).
    rewrite upstreamCalls_app, waited_app.
    unfold fetchCalls in *. rewrite List.filter_app, length_app.
    split; [lia|]. split; [lia|]. split; [lia|].
    intros request [Hreq|Hreq]%in_app_or.
    + exists imageParts. split; [done|]. left. by apply Hr1.
    + exists imageParts. split; [done|]. right. exists style.
      split; [done|]. by apply Hr2.
Qed.

(** X5. One run of [generateStyleImage], on either proxy, only adds events
    to the trace, and among them at most six upstream calls and at most
    6000 ms of waiting; it sends nothing to the proxy itself. Every upstream
    request it issues is the parts of the images followed by one
    instruction: the given prompt, or the fallback prompt of a style of the
    catalogue. *)
Theorem generateStyleImage_budget
  (upstream : Upstream) (interpret : Response -> Completion string)
  (imageDataUrls : list string) (prompt : string) (t : Trace) :
  exists events,
    (Proxy.generateStyleImage upstream interpret imageDataUrls prompt t).2
    = t ++ events
    /\ upstreamCalls events <= 6
    /\ (waited events <= 6000)%N
    /\ fetchCalls events = 0
    /\ forall request, In (EUpstream request) events ->
         exists imageParts,
           Proxy.imagePartsOf imageDataUrls = Returned imageParts
           /\ (request = imageParts ++ [TextPart prompt]
               \/ exists style, In style App.STYLES
                    /\ request
                       = imageParts ++ [TextPart (Proxy.getFallbackPrompt style)]).
Proof. apply generateStyleImage_bounds. Qed.

(** The bounds of the budget are reached. *)
Lemma generateStyleImage_budget_reached :
  let run := Vercel.generateStyleImage slowest [Fixtures.photo]
               (App.stylePrompt "Modern") [] in
  run.1 = Returned Fixtures.imageUrl
  /\ upstreamCalls run.2 = 6 /\ waited run.2 = 6000%N.
Proof. by vm_compute. Qed.

(** ** The two interpreters *)

Lemma scanParts_find ps :
  Netlify.scanParts ps =
  match List.find Vercel.hasInlineData ps with
  | Some part =>
      match inlineData part with
      | Some blob =>
          Some (if negb (Js.truthy (data blob))
                then Threw (Js.Error "Image data is empty")
                else Returned ("data:" +:+ Js.tmpl (mimeType blob) +:+ ";base64,"
                               +:+ Js.tmpl (data blob)))
      | None => None
      end
  | None => None
  end.
Proof.
  induction ps as [|part ps IH]; [done|]. cbn [Netlify.scanParts List.find].
  unfold Vercel.hasInlineData at 1.
  destruct (inlineData part) as [blob|] eqn:Hblob; [|exact IH].
  rewrite Hblob. by destruct (negb _).
Qed.

(** X6. On a response that has candidates of its own, the two interpreters
    agree whenever the Netlify one returns: the Vercel one returns the same
    data URL. Conversely, when the Vercel one returns a data URL, the
    Netlify one returns the same URL or rejects the image as empty. *)
Theorem interpreters_agree
  (stringify : Content -> string) (response : Response) (cs : list Candidate) :
  candidates response = Some cs ->
  (forall imageUrl,
     Netlify.processGeminiResponse stringify response = Returned imageUrl ->
     Vercel.processGeminiResponse response = Returned imageUrl)
  /\ (forall imageUrl,
        Vercel.processGeminiResponse response = Returned imageUrl ->
        Netlify.processGeminiResponse stringify response = Returned imageUrl
        \/ Netlify.processGeminiResponse stringify response
           = Threw (Js.Error "Image data is empty")).
Proof.
  intros Hcs.
  unfold Netlify.processGeminiResponse, Vercel.processGeminiResponse, Js.chain.
  rewrite Hcs.
  destruct (head cs) as [c|]; [|by split].
  destruct (content c) as [ct|]; [|by split].
  destruct (parts ct) as [ps|]; [|by split].
  rewrite scanParts_find.
  destruct (List.find Vercel.hasInlineData ps) as [part|]; [|by split].
  destruct (inlineData part) as [blob|]; [|by split].
  destruct (Js.truthy (data blob)); cbn [negb]; split; intros imageUrl; auto;
    discriminate.
Qed.

Lemma interpreters_agree_witness :
  Vercel.processGeminiResponse Fixtures.imageResponse = Returned Fixtures.imageUrl.
Proof.
  destruct (interpreters_agree (fun _ => "{}") Fixtures.imageResponse _ eq_refl)
    as [Hagree _].
  by apply Hagree.
Defined.

(** ** The handler of the proxy *)

Local Ltac rejected :=
  eexists _, []; rewrite app_nil_r; (split; [done|]); cbn;
  (split; [by auto 6|]); (split; [lia|]); (split; done).

Lemma handler_answers
  (upstream : Upstream) (interpret : Response -> Completion string)
  (req : HttpRequest) (t : Trace) :
  exists response events,
    Proxy.handler upstream interpret req t = (Returned response, t ++ events)
    /\ (statusCode response = 200 \/ statusCode response = 400
        \/ statusCode response = 405 \/ statusCode response = 500)%N
    /\ upstreamCalls events <= 6 /\ fetchCalls events = 0
    /\ (statusCode response = 400%N \/ statusCode response = 405%N
        \/ method req = "OPTIONS" -> events = []).
Proof.
  unfold Proxy.handler, tryCatch, bind, ret.
  destruct (String.eqb_spec (method req) "OPTIONS") as [Hm|Hm].
  { rejected. }
  destruct (String.eqb (method req) "POST"); cbn [negb].
  2:{ rejected. }
  destruct (images req) as [[|img imgs]|];
    try rejected.
  destruct (Js.truthy (prompt req)); cbn [negb];
    [|rejected].
  destruct (forallb _ (img :: imgs)); cbn [negb];
    [|rejected].
  destruct (generateStyleImage_bounds upstream interpret (img :: imgs)
              (Js.tmpl (prompt req)) t) as (events & Ht & Hcalls & _ & Hfetch & _).
  destruct (Proxy.generateStyleImage upstream interpret (img :: imgs) _ t)
    as [[imageUrl|error] t']; cbn [snd] in Ht; subst t';
    eexists _, events; (split; [done|]); cbn [statusCode];
    (split; [by auto 6|]); (split; [done|]); (split; [done|]); by intros [|[|]].
Qed.

(** X7. The handler of the proxy never throws: every request gets a
    response, with status 200, 400, 405 or 500. It adds at most six
    upstream calls to the trace, and none at all when it answers 400 or 405
    or when the method is OPTIONS. *)
Theorem handler_never_throws
  (upstream : Upstream) (interpret : Response -> Completion string)
  (req : HttpRequest) (t : Trace) :
  exists response events,
    Proxy.handler upstream interpret req t = (Returned response, t ++ events)
    /\ (statusCode response = 200 \/ statusCode response = 400
        \/ statusCode response = 405 \/ statusCode response = 500)%N
    /\ upstreamCalls events <= 6 /\ fetchCalls events = 0
    /\ (statusCode response = 400%N \/ statusCode response = 405%N
        \/ method req = "OPTIONS" -> events = []).
Proof. apply handler_answers. Qed.

(** X8. What the response of the handler says about the generation: it
    carries an image URL only for a POST request with a non-empty image set
    and a prompt for which [generateStyleImage] returned that URL, and then
    its status is 200 and [success] is true. When [generateStyleImage]
    throws for a POST request that passed the checks of the handler, the
    status is 500, [success] is false, [message] is the message of the
    failure, and there is no image URL. *)
Theorem handler_reports_generation
  (upstream : Upstream) (interpret : Response -> Completion string)
  (req : HttpRequest) (t t' : Trace) (response : HttpResponse) :
  Proxy.handler upstream interpret req t = (Returned response, t') ->
  (forall imageUrl, responseImageUrl response = Some imageUrl ->
     method req = "POST" /\ statusCode response = 200%N
     /\ responseSuccess response = Some true
     /\ exists imgs text,
          images req = Some imgs /\ imgs <> [] /\ prompt req = Some text
          /\ Proxy.generateStyleImage upstream interpret imgs text t
             = (Returned imageUrl, t'))
  /\ (forall imgs text error t1,
        method req = "POST" ->
        images req = Some imgs -> imgs <> [] ->
        prompt req = Some text -> text <> "" ->
        forallb (fun image => Js.startsWith image "data:image/") imgs = true ->
        Proxy.generateStyleImage upstream interpret imgs text t = (Threw error, t1) ->
        t' = t1 /\ statusCode response = 500%N
        /\ responseSuccess response = Some false
        /\ responseMessage response = Some (reportedMessage error)
        /\ responseImageUrl response = None).
Proof.
  unfold Proxy.handler, tryCatch, bind, ret, responseImageUrl, responseSuccess,
    responseMessage.
  destruct (String.eqb_spec (method req) "OPTIONS") as [Hm|Hm].
  { intros [= <- <-]. split; [done|]. intros ? ? ? ? Hpost. congruence. }
  destruct (String.eqb_spec (method req) "POST") as [Hpost|Hpost]; cbn [negb].
  2:{ intros [= <- <-]. by split. }
  destruct (images req) as [[|img imgs]|] eqn:Himages;
    [intros [= <- <-]; (split; [done|]); intros; congruence|
    |intros [= <- <-]; (split; [done|]); intros; congruence].
  destruct (prompt req) as [[|c text]|] eqn:Hprompt; cbn [Js.truthy negb];
    [intros [= <- <-]; (split; [done|]); intros; congruence|
    |intros [= <- <-]; (split; [done|]); intros; congruence].
  destruct (forallb _ (img :: imgs)) eqn:Hprefix; cbn [negb].
  2:{ intros [= <- <-]. split; [done|]. intros. congruence. }
  cbn [Js.tmpl].
  destruct (Proxy.generateStyleImage upstream interpret (img :: imgs)
              (String c text) t) as [[imageUrl|error] t1] eqn:Hgen;
    intros [= <- <-];
    cbn [statusCode body Js.chain json_imageUrl json_success json_message];
    split.
  - intros url [= <-]. repeat split; try done. by eexists _, _.
  - intros ? ? ? ? _ [= <-] _ [= <-] _ _. by rewrite Hgen.
  - done.
  - intros ? ? ? ? _ [= <-] _ [= <-] _ _. rewrite Hgen. by intros [= <- <-].
Qed.

Lemma handler_reports_generation_witness :
  Proxy.handler Fixtures.generous Vercel.processGeminiResponse
    (mkHttpRequest "POST" (Some [Fixtures.photo]) (Some (App.stylePrompt "Modern"))) []
  = (Returned (mkHttpResponse 200
       (Some (mkJsonBody None (Some "Image generated successfully") (Some true)
                         (Some Fixtures.imageUrl)))),
     [EUpstream Fixtures.modernRequest])
  /\ Proxy.generateStyleImage Fixtures.generous Vercel.processGeminiResponse
       [Fixtures.photo] (App.stylePrompt "Modern") []
     = (Returned Fixtures.imageUrl, [EUpstream Fixtures.modernRequest])
  /\ (let response :=
        mkHttpResponse 500
          (Some (mkJsonBody (Some "Image generation failed")
                   (Some "The AI model failed to generate an image. Details: got status: 429 RESOURCE_EXHAUSTED. Quota exceeded.")
                   (Some false) None)) in
      statusCode response = 500%N
      /\ responseSuccess response = Some false
      /\ responseMessage response
         = Some (reportedMessage (Proxy.unrecoverable Fixtures.quotaError))
      /\ responseImageUrl response = None).
Proof.
  split; [reflexivity|]. split.
  - destruct (handler_reports_generation Fixtures.generous
                Vercel.processGeminiResponse
                (mkHttpRequest "POST" (Some [Fixtures.photo])
                               (Some (App.stylePrompt "Modern")))
                [] [EUpstream Fixtures.modernRequest] _ eq_refl) as [Himage _].
    destruct (Himage Fixtures.imageUrl eq_refl)
      as (_ & _ & _ & imgs & text & [= <-] & _ & [= <-] & Hgen).
    exact Hgen.
  - destruct (handler_reports_generation Fixtures.exhausted
                Vercel.processGeminiResponse
                (mkHttpRequest "POST" (Some [Fixtures.photo])
                               (Some (App.stylePrompt "Modern")))
                [] [EUpstream Fixtures.modernRequest] _ eq_refl) as [_ Hfailure].
    exact (proj2 (Hfailure [Fixtures.photo] (App.stylePrompt "Modern")
                    (Proxy.unrecoverable Fixtures.quotaError)
                    [EUpstream Fixtures.modernRequest]
                    eq_refl eq_refl ltac:(discriminate) eq_refl ltac:(discriminate)
                    eq_refl eq_refl)).
Defined.

(** ** The browser service *)

Lemma tryCatch_Threw {A} (m : Eff A) handler t e t' :
  tryCatch m handler t = (Threw e, t') ->
  exists e0 t0, m t = (Threw e0, t0) /\ handler e0 t0 = (Threw e, t').
Proof.
  unfold tryCatch. destruct (m t) as [[a|e0] t0]; [done|]. by eauto.
Qed.

(** X9. Whatever [fetch] does, a failure of the browser service is an
    [Error] whose message is one of its three fixed messages or starts with
    [Failed to generate image: ]. *)
Theorem client_failure_texts
  (fetch : list string -> string -> Eff HttpResponse)
  (imageDataUrls : list string) (text : string) (t t' : Trace) (e : Js.Thrown) :
  Client.generateStyleImage fetch imageDataUrls text t = (Threw e, t') ->
  exists message,
    e = Js.Error message
    /\ (message = technicalIssueText \/ message = networkErrorText
        \/ message = serverErrorText
        \/ exists detail, message = "Failed to generate image: " +:+ detail).
Proof.
  unfold Client.generateStyleImage.
  intros (e0 & t0 & _ & Hcatch)%tryCatch_Threw.
  cbv beta zeta delta [throw] in Hcatch.
  repeat match type of Hcatch with
         | context [if ?b then _ else _] => destruct b
         end;
    injection Hcatch as <- <-; eexists; (split; [reflexivity|]); by eauto 6.
Qed.

Lemma client_failure_texts_witness :
  exists message,
    Js.Error "Failed to generate image: At least one image is required for remodeling"
    = Js.Error message
    /\ (message = technicalIssueText \/ message = networkErrorText
        \/ message = serverErrorText
        \/ exists detail, message = "Failed to generate image: " +:+ detail).
Proof.
  exact (client_failure_texts (Client.fetchProxy true (Vercel.handler Fixtures.generous))
           [] "" [] [] _ eq_refl).
Defined.

(** X10. When [fetch] rejects with a failure whose text holds
    [Failed to fetch] or [NetworkError] (and not the marker of the
    technical issue), the browser service, on a valid input, reports the
    network error, with the trace that [fetch] left. *)
Theorem client_network_failure
  (fetch : list string -> string -> Eff HttpResponse)
  (imageDataUrls : list string) (text : string) (t t' : Trace) (e : Js.Thrown) :
  imageDataUrls <> [] ->
  Js.isBlank text = false ->
  Forall (fun url => Js.startsWith url "data:image/" = true) imageDataUrls ->
  fetch imageDataUrls text t = (Threw e, t') ->
  Js.includes (Js.messageOrString e) "IMAGE_GENERATION_NOT_SUPPORTED" = false ->
  Js.includes (Js.messageOrString e) "Failed to fetch" = true
    \/ Js.includes (Js.messageOrString e) "NetworkError" = true ->
  Client.generateStyleImage fetch imageDataUrls text t
  = (Threw (Js.Error networkErrorText), t').
Proof.
  intros Hne Hblank Hprefix Hfetch Hnot Hnet.
  unfold Client.generateStyleImage, tryCatch, bind.
  destruct imageDataUrls as [|url rest]; [done|].
  rewrite Hblank, (not_blank_truthy _ Hblank), (forallb_startsWith_true _ Hprefix).
  cbn [negb orb]. rewrite Hfetch. cbv beta zeta. rewrite Hnot.
  by destruct Hnet as [-> | ->]; rewrite ?orb_true_r.
Qed.

Lemma client_network_failure_witness :
  Client.generateStyleImage
    (Client.fetchProxy false (Vercel.handler Fixtures.generous))
    [Fixtures.photo] (App.stylePrompt "Modern") []
  = (Threw (Js.Error networkErrorText),
     [EFetch [Fixtures.photo] (App.stylePrompt "Modern")]).
Proof.
  apply (client_network_failure _ _ _ _ _ (Js.Error "Failed to fetch"));
    [discriminate|reflexivity|by repeat constructor|reflexivity|reflexivity|
     by left].
Defined.

(** The handler of the proxy on a POST request that passes its checks. *)
Lemma handler_valid_post upstream interpret imageDataUrls text t :
  imageDataUrls <> [] ->
  Js.isBlank text = false ->
  Forall (fun url => Js.startsWith url "data:image/" = true) imageDataUrls ->
  Proxy.handler upstream interpret
    (mkHttpRequest "POST" (Some imageDataUrls) (Some text)) t
  = match Proxy.generateStyleImage upstream interpret imageDataUrls text t with
    | (Returned imageUrl, t') =>
        (Returned (mkHttpResponse 200
           (Some (mkJsonBody None (Some "Image generated successfully")
                             (Some true) (Some imageUrl)))), t')
    | (Threw error, t') =>
        (Returned (mkHttpResponse 500
           (Some (mkJsonBody (Some "Image generation failed")
                             (Some (reportedMessage error)) (Some false) None))), t')
    end.
Proof.
  intros Hne Hblank Hprefix. unfold Proxy.handler. cbn [method images prompt].
  change (String.eqb "POST" "OPTIONS") with false.
  change (String.eqb "POST" "POST") with true. cbn [negb].
  destruct imageDataUrls as [|url rest]; [done|].
  unfold tryCatch, bind.
  rewrite (not_blank_truthy _ Hblank), (forallb_startsWith_true _ Hprefix).
  cbn [negb Js.tmpl].
  by destruct (Proxy.generateStyleImage upstream interpret (url :: rest) text t)
    as [[imageUrl|[m|j s]] t'].
Qed.

Lemma generateStyleImage_returned_parts upstream interpret imageDataUrls text t
  imageUrl t' :
  Proxy.generateStyleImage upstream interpret imageDataUrls text t
    = (Returned imageUrl, t') ->
  exists imageParts, Proxy.imagePartsOf imageDataUrls = Returned imageParts.
Proof.
  unfold Proxy.generateStyleImage, bind, liftCompletion.
  destruct (Proxy.imagePartsOf imageDataUrls) as [imageParts|e]; [by eauto|done].
Qed.

(** X11. The browser service in front of a reachable proxy returns what the
    proxy generated: when [generateStyleImage] of the proxy returns a
    non-empty URL for a non-empty image set and a prompt that is not blank,
    the browser service returns that URL, after one request to the proxy
    and the upstream calls of that generation. *)
Theorem service_returns_generated_image
  (upstream : Upstream) (interpret : Response -> Completion string)
  (imageDataUrls : list string) (text imageUrl : string) (t t' : Trace) :
  imageDataUrls <> [] ->
  Js.isBlank text = false ->
  imageUrl <> "" ->
  Proxy.generateStyleImage upstream interpret imageDataUrls text
    (t ++ [EFetch imageDataUrls text]) = (Returned imageUrl, t') ->
  Client.generateStyleImage
    (Client.fetchProxy true (Proxy.handler upstream interpret))
    imageDataUrls text t
  = (Returned imageUrl, t').
Proof.
  intros Hne Hblank Hurl Hgen.
  destruct (generateStyleImage_returned_parts _ _ _ _ _ _ _ Hgen) as [ps Hps].
  pose proof (imagePartsOf_prefix _ _ Hps) as Hprefix.
  assert (HForall : Forall (fun url => Js.startsWith url "data:image/" = true)
                           imageDataUrls).
  { apply List.Forall_forall. intros url Hin.
    exact (proj1 (forallb_forall _ _) Hprefix url Hin). }
  unfold Client.generateStyleImage, tryCatch, bind.
  destruct imageDataUrls as [|url rest] eqn:Himgs; [done|].
  rewrite Hblank, (not_blank_truthy _ Hblank), Hprefix. cbn [negb orb].
  unfold Client.fetchProxy, bind, emit.
  rewrite (handler_valid_post _ _ _ _ _ Hne Hblank HForall), Hgen.
  cbn. by destruct imageUrl.
Qed.

Lemma service_returns_generated_image_witness :
  Fixtures.service [Fixtures.photo] (App.stylePrompt "Modern") []
  = (Returned Fixtures.imageUrl,
     [EFetch [Fixtures.photo] (App.stylePrompt "Modern");
      EUpstream Fixtures.modernRequest]).
Proof.
  apply (service_returns_generated_image Fixtures.generous
           Vercel.processGeminiResponse);
    [discriminate|reflexivity|discriminate|reflexivity].
Defined.

(** The prefix that the browser service puts before the message of the
    proxy holds none of the markers it looks for afterwards. *)
Lemma includes_after_failed_prefix m :
  Js.includes ("Image generation failed: " +:+ m) "IMAGE_GENERATION_NOT_SUPPORTED"
  = Js.includes m "IMAGE_GENERATION_NOT_SUPPORTED"
  /\ Js.includes ("Image generation failed: " +:+ m) "Failed to fetch"
     = Js.includes m "Failed to fetch"
  /\ Js.includes ("Image generation failed: " +:+ m) "NetworkError"
     = Js.includes m "NetworkError"
  /\ Js.includes ("Image generation failed: " +:+ m) "Server responded with status: 5"
     = Js.includes m "Server responded with status: 5".
Proof.
  rewrite !append_cons, append_nil_l. repeat split; cbn; by destruct m.
Qed.

(** X12. The browser service in front of a reachable proxy reports the
    failure of the proxy: when [generateStyleImage] of the proxy throws an
    [Error] with a non-empty message that holds none of the four markers of
    the browser service, the failure of the browser service is
    [Failed to generate image: Image generation failed: ] followed by that
    message. *)
Theorem service_reports_proxy_failure
  (upstream : Upstream) (interpret : Response -> Completion string)
  (imageDataUrls : list string) (text message : string) (t t' : Trace) :
  imageDataUrls <> [] ->
  Js.isBlank text = false ->
  Forall (fun url => Js.startsWith url "data:image/" = true) imageDataUrls ->
  Proxy.generateStyleImage upstream interpret imageDataUrls text
    (t ++ [EFetch imageDataUrls text]) = (Threw (Js.Error message), t') ->
  message <> "" ->
  Js.includes message "IMAGE_GENERATION_NOT_SUPPORTED" = false ->
  Js.includes message "Failed to fetch" = false ->
  Js.includes message "NetworkError" = false ->
  Js.includes message "Server responded with status: 5" = false ->
  Client.generateStyleImage
    (Client.fetchProxy true (Proxy.handler upstream interpret))
    imageDataUrls text t
  = (Threw (Js.Error ("Failed to generate image: Image generation failed: "
                      +:+ message)), t').
Proof.
  intros Hne Hblank Hprefix Hgen Hmessage H1 H2 H3 H4.
  unfold Client.generateStyleImage, tryCatch, bind.
  destruct imageDataUrls as [|url rest] eqn:Himgs; [done|].
  rewrite Hblank, (not_blank_truthy _ Hblank), (forallb_startsWith_true _ Hprefix).
  cbn [negb orb]. unfold Client.fetchProxy, bind, emit.
  rewrite (handler_valid_post _ _ _ _ _ Hne Hblank Hprefix), Hgen.
  cbn [Client.ok statusCode N.leb N.compare Pos.compare Pos.compare_cont andb negb
       body default id json_message json_error reportedMessage].
  assert (Hor : Js.or (Js.or (Some message) (Some "Image generation failed"))
                  (Some ("Server responded with status: " +:+ pretty 500%N))
                = Some message) by (by destruct message).
  rewrite Hor. cbv beta zeta delta [throw]. cbn [Js.tmpl Js.messageOrString].
  destruct (includes_after_failed_prefix message) as (-> & -> & -> & ->).
  by rewrite H1, H2, H3, H4.
Qed.

Lemma service_reports_proxy_failure_witness :
  Client.generateStyleImage
    (Client.fetchProxy true (Vercel.handler Fixtures.exhausted))
    [Fixtures.photo] (App.stylePrompt "Modern") []
  = (Threw (Js.Error
       "Failed to generate image: Image generation failed: The AI model failed to generate an image. Details: got status: 429 RESOURCE_EXHAUSTED. Quota exceeded."),
     [EFetch [Fixtures.photo] (App.stylePrompt "Modern");
      EUpstream Fixtures.modernRequest]).
Proof.
  apply (service_reports_proxy_failure Fixtures.exhausted Vercel.processGeminiResponse);
    [discriminate|reflexivity|by repeat constructor|reflexivity|discriminate|
     reflexivity|reflexivity|reflexivity|reflexivity].
Defined.

(** The text that the browser service builds for a status without message
    is classified as a server error for every status from 500 to 599. *)
Lemma status_text_classified (status : N) :
  (500 <= status <= 599)%N ->
  let message := "Image generation failed: "
                 +:+ ("Server responded with status: " +:+ pretty status) in
  Js.includes message "IMAGE_GENERATION_NOT_SUPPORTED" = false
  /\ Js.includes message "Failed to fetch" = false
  /\ Js.includes message "NetworkError" = false
  /\ Js.includes message "Server responded with status: 5" = true.
Proof.
  intros Hrange.
  set (check := fun s : N =>
    let message := "Image generation failed: "
                   +:+ ("Server responded with status: " +:+ pretty s) in
    negb (Js.includes message "IMAGE_GENERATION_NOT_SUPPORTED")
    && negb (Js.includes message "Failed to fetch")
    && negb (Js.includes message "NetworkError")
    && Js.includes message "Server responded with status: 5").
  assert (Hall : forallb (fun k => check (500 + N.of_nat k)%N) (seq 0 100) = true)
    by (by vm_compute).
  assert (Hcheck : check status = true).
  { replace status with (500 + N.of_nat (N.to_nat (status - 500)))%N by lia.
    apply (proj1 (forallb_forall _ _) Hall). apply in_seq. lia. }
  unfold check in Hcheck. cbv zeta in *.
  apply andb_prop in Hcheck as [[[H1%negb_true_iff H2%negb_true_iff]%andb_prop
                                  H3%negb_true_iff]%andb_prop H4].
  done.
Qed.

(** X13. When the answer to a valid request has a status from 500 to 599
    and a body that is not JSON, or that is JSON other than [null] with the
    fields [message] and [error] missing or empty, the browser service
    reports the server error. (A body that is the JSON value [null] is not
    covered: reading [message] on it throws.) *)
Theorem client_server_error
  (fetch : list string -> string -> Eff HttpResponse)
  (imageDataUrls : list string) (text : string) (t t' : Trace)
  (response : HttpResponse) :
  imageDataUrls <> [] ->
  Js.isBlank text = false ->
  Forall (fun url => Js.startsWith url "data:image/" = true) imageDataUrls ->
  fetch imageDataUrls text t = (Returned response, t') ->
  (500 <= statusCode response <= 599)%N ->
  Js.truthy (json_message (default Client.emptyBody (body response))) = false ->
  Js.truthy (json_error (default Client.emptyBody (body response))) = false ->
  Client.generateStyleImage fetch imageDataUrls text t
  = (Threw (Js.Error serverErrorText), t').
Proof.
  intros Hne Hblank Hprefix Hfetch Hstatus Hmessage Herror.
  unfold Client.generateStyleImage, tryCatch, bind.
  destruct imageDataUrls as [|url rest] eqn:Himgs; [done|].
  rewrite Hblank, (not_blank_truthy _ Hblank), (forallb_startsWith_true _ Hprefix).
  cbn [negb orb]. rewrite Hfetch.
  assert (Hok : Client.ok response = false).
  { unfold Client.ok. apply andb_false_iff. right. apply N.leb_gt. lia. }
  rewrite Hok. cbn [negb]. unfold Js.or at 1 2. rewrite Hmessage, Herror.
  cbv beta zeta delta [throw]. cbn [Js.truthy Js.tmpl Js.messageOrString].
  destruct (status_text_classified _ Hstatus) as (-> & -> & -> & ->).
  done.
Qed.

Lemma client_server_error_witness :
  Client.generateStyleImage
    (fun images text t => (Returned (mkHttpResponse 502 None), t ++ [EFetch images text]))
    [Fixtures.photo] (App.stylePrompt "Modern") []
  = (Threw (Js.Error serverErrorText),
     [EFetch [Fixtures.photo] (App.stylePrompt "Modern")]).
Proof.
  apply (client_server_error _ _ _ _ _ (mkHttpResponse 502 None));
    [discriminate|reflexivity|by repeat constructor|reflexivity|done|
     reflexivity|reflexivity].
Defined.

(** ** Regeneration of a settled style *)

Lemma settle_lookup_ne style result images other :
  style <> other -> App.settle style result images !! other = images !! other.
Proof. intros Hne. by destruct result; cbn [App.settle]; rewrite lookup_insert_ne. Qed.

(** X14. [handleRegenerateStyle] for a style that is not pending, with
    images uploaded, calls the service once, with the uploaded images and
    the prompt of that style; the entry of the style becomes what the
    service gave (done with the URL, or error with the message), the entries
    of the other styles and the uploaded images are unchanged. *)
Theorem regenerate_replaces_one_entry
  (service : list string -> string -> Eff string)
  (style : string) (st : App.State) (t : Trace) :
  App.uploadedImages st <> [] ->
  App.status <$> App.generatedImages st !! style <> Some App.pending ->
  let run := service (App.uploadedImages st) (App.stylePrompt style) t in
  let after := App.handleRegenerateStyle service style st t in
  after.2 = run.2
  /\ App.uploadedImages after.1 = App.uploadedImages st
  /\ App.generatedImages after.1 !! style
     = Some (match run.1 with
             | Returned resultUrl => App.mkGeneratedImage App.done (Some resultUrl) None
             | Threw (Js.Error message) =>
                 App.mkGeneratedImage App.error None (Some message)
             | Threw (Js.Value _ _) =>
                 App.mkGeneratedImage App.error None (Some "An unknown error occurred.")
             end)
  /\ forall other, other <> style ->
       App.generatedImages after.1 !! other = App.generatedImages st !! other.
Proof.
  intros Himages Hstatus run after. subst run after.
  unfold App.handleRegenerateStyle.
  destruct (App.uploadedImages st) as [|image images] eqn:Hup; [done|].
  assert (Hrun : forall k : App.State * Trace,
    match App.status <$> App.generatedImages st !! style with
    | Some App.pending => (st, t)
    | _ => k
    end = k).
  { intros k. by destruct (App.status <$> App.generatedImages st !! style) as [[]|]. }
  rewrite Hrun. cbn [App.uploadedImages App.generatedImages].
  destruct (service (image :: images) (App.stylePrompt style) t)
    as [[resultUrl|[message|json str]] t1];
    cbn [fst snd App.uploadedImages App.generatedImages App.settle];
    (split; [done|]); (split; [done|]); (split; [by rewrite lookup_insert_eq|]);
    intros other Hother; by rewrite !lookup_insert_ne.
Qed.

Lemma regenerate_replaces_one_entry_witness :
  let after :=
    App.handleRegenerateStyle Fixtures.service "Scandinavian" Fixtures.midRound [] in
  App.generatedImages after.1 !! "Scandinavian"
  = Some (App.mkGeneratedImage App.done (Some Fixtures.imageUrl) None)
  /\ App.generatedImages after.1 !! "Modern" = Some App.pendingImage.
Proof.
  destruct (regenerate_replaces_one_entry Fixtures.service "Scandinavian"
              Fixtures.midRound []) as (_ & _ & Hstyle & Hothers);
    [discriminate|by vm_compute|].
  split; [exact Hstyle|]. by rewrite Hothers.
Defined.

(** ** Order and independence in the round *)

Section RoundOrder.

Import App.

Lemma STYLES_NoDup : NoDup STYLES.
Proof. by apply (bool_decide_unpack _); vm_compute. Qed.

Lemma STYLES_nonEmpty style : style ∈ STYLES -> nonEmpty style = true.
Proof.
  intros Hin%list_elem_of_In. cbn in Hin.
  repeat (destruct Hin as [<-|Hin]; [done|]). destruct Hin.
Qed.

Lemma initialImages_pending style :
  style ∈ STYLES -> initialImages !! style = Some pendingImage.
Proof.
  intros Hin%list_elem_of_In. cbn in Hin.
  repeat (destruct Hin as [<-|Hin]; [by vm_compute|]). destruct Hin.
Qed.

Lemma awaiting_mem before w after style :
  style ∈ awaitingStyles (before ++ w :: after)
  <-> style ∈ awaitingStyles before \/ w = Awaiting style
      \/ style ∈ awaitingStyles after.
Proof.
  rewrite awaitingStyles_middle, !elem_of_app.
  destruct w as [|style'|]; rewrite ?list_elem_of_singleton, ?elem_of_nil;
    intuition congruence.
Qed.

Lemma filter_nonEmpty_mem style queue :
  nonEmpty style = true -> style ∈ queue -> style ∈ List.filter nonEmpty queue.
Proof.
  intros Hne Hin%list_elem_of_In. apply list_elem_of_In, filter_In. by split.
Qed.

(** A style whose task has settled is neither in flight nor queued. *)
Lemma settled_disjoint r style :
  invariant r -> style ∈ settled r ->
  style ∉ awaitingStyles (workers r) ++ stylesQueue r.
Proof.
  intros Hinv Hsettled Hin. pose proof (inv_styles r Hinv) as Hperm.
  pose proof STYLES_NoDup as Hnodup. rewrite <- Hperm in Hnodup.
  apply NoDup_app in Hnodup as (_ & Hdisjoint & _).
  apply (Hdisjoint style Hsettled).
  assert (Hstyle : style ∈ STYLES).
  { rewrite <- Hperm. apply elem_of_app. by left. }
  apply elem_of_app in Hin as [Hin|Hin]; apply elem_of_app; [by left|right].
  by apply filter_nonEmpty_mem; [apply STYLES_nonEmpty|].
Qed.

Lemma in_flight_is_style r style :
  invariant r -> style ∈ awaitingStyles (workers r) -> style ∈ STYLES.
Proof.
  intros Hinv Hin. rewrite <- (inv_styles r Hinv), !elem_of_app. auto.
Qed.

Lemma settle_dom style result images :
  is_Some (images !! style) ->
  dom (settle style result images) = dom images.
Proof.
  intros Hsome. destruct result; cbn [settle]; by apply dom_insert_lookup_L.
Qed.

Lemma round_order st r0 r :
  handleGenerateClick st = Some r0 -> steps r0 r ->
  (exists started, STYLES = started ++ stylesQueue r)
  /\ (forall style, style ∈ awaitingStyles (workers r) ++ stylesQueue r ->
        session r !! style = Some pendingImage)
  /\ dom (session r) = dom initialImages.
Proof.
  intros Hstart Hsteps. induction Hsteps as [r0|r0 r2 r3 Hsteps IH Hstep].
  - unfold handleGenerateClick in Hstart.
    destruct (uploadedImages st); [done|]. injection Hstart as <-.
    cbn [stylesQueue workers session]. split; [by exists []|]. split; [|done].
    intros style Hin. by apply initialImages_pending.
  - specialize (IH Hstart). destruct IH as ((started & Hstarted) & Hpending & Hdom).
    pose proof (invariant_steps st r0 r2 Hstart Hsteps) as Hinv2.
    destruct Hstep as [i r Hi Hq|i r style0 rest Hi Hq Hne|i r rest Hi Hq
                      |i r style0 result Hi];
      cbn [stylesQueue workers session].
    + destruct (insert_split _ _ _ Exited Hi) as (before & after & Hws & ->).
      rewrite Hq in *. split; [by eauto|]. split; [|done].
      intros style Hin. apply Hpending. rewrite Hws.
      revert Hin. rewrite !elem_of_app, !awaiting_mem. intuition congruence.
    + destruct (insert_split _ _ _ (Awaiting style0) Hi)
        as (before & after & Hws & ->).
      rewrite Hq in *. split; [|split; [|done]].
      * exists (started ++ [style0]). by rewrite <- app_assoc.
      * intros style Hin. apply Hpending. rewrite Hws.
        revert Hin. rewrite !elem_of_app, !awaiting_mem, elem_of_cons.
        intros [[?|[[= ->]|?]]|?]; auto.
    + rewrite Hq in *. split; [|split; [|done]].
      * exists (started ++ [""]). by rewrite <- app_assoc.
      * intros style Hin. apply Hpending.
        revert Hin. rewrite !elem_of_app, elem_of_cons. intuition.
    + destruct (insert_split _ _ _ Looping Hi) as (before & after & Hws & Hws').
      assert (Hflight : style0 ∈ awaitingStyles (workers r)).
      { rewrite Hws. apply awaiting_mem. auto. }
      assert (Hstep : step r (mkRound (stylesQueue r) (<[i:=Looping]> (workers r))
                                (settle style0 result (session r))
                                (settled r ++ [style0])))
        by (by apply step_settle).
      pose proof (invariant_step _ _ Hinv2 Hstep) as Hinv3.
      split; [by eauto|]. split.
      * intros style Hin.
        assert (Hne : style0 <> style).
        { intros ->. apply (settled_disjoint _ style Hinv3); [|exact Hin].
          cbn [settled]. apply elem_of_app. right. by apply list_elem_of_singleton. }
        rewrite (settle_lookup_ne _ _ _ _ Hne). apply Hpending.
        revert Hin. rewrite Hws', Hws, !elem_of_app, !awaiting_mem.
        intuition congruence.
      * rewrite settle_dom; [done|]. rewrite Hpending; [done|].
        apply elem_of_app. by left.
Qed.

Lemma steps_trans r1 r2 r3 : steps r1 r2 -> steps r2 r3 -> steps r1 r3.
Proof.
  intros H12 H23. induction H23 as [|r2 r3 r4 _ IH Hstep]; [done|].
  eapply steps_step; [by apply IH|done].
Qed.

Lemma steps_settled_mono r r' style :
  steps r r' -> style ∈ settled r -> style ∈ settled r'.
Proof.
  induction 1 as [|r1 r2 r3 _ IH Hstep]; [done|]. intros Hin. specialize (IH Hin).
  destruct Hstep; cbn [settled]; try done. apply elem_of_app. by left.
Qed.

End RoundOrder.

(** X15. In every state of a round, the entry of a style whose task is
    in flight or still queued is the pending entry: a task that settles
    writes its own entry only. *)
Theorem round_pending_until_settled
  (st : App.State) (r0 r : App.Round) (style : string) :
  App.handleGenerateClick st = Some r0 ->
  App.steps r0 r ->
  style ∈ App.awaitingStyles (App.workers r) ++ App.stylesQueue r ->
  App.session r !! style = Some App.pendingImage.
Proof.
  intros Hstart Hsteps.
  destruct (round_order st r0 r Hstart Hsteps) as (_ & Hpending & _).
  apply Hpending.
Qed.

(** X16. Once the task of a style has settled, the entry of that style is
    not changed by the rest of the round: the failure or the success of the
    other tasks leaves it as it is. *)
Theorem round_outcome_is_stable
  (st : App.State) (r0 r r' : App.Round) (style : string) :
  App.handleGenerateClick st = Some r0 ->
  App.steps r0 r ->
  App.steps r r' ->
  style ∈ App.settled r ->
  App.session r' !! style = App.session r !! style.
Proof.
  intros Hstart Hsteps Hrest Hsettled.
  induction Hrest as [|r1 r2 r3 Hrest IH Hstep]; [done|].
  rewrite <- (IH Hsteps Hsettled).
  pose proof (invariant_steps st r0 r2 Hstart (steps_trans _ _ _ Hsteps Hrest))
    as Hinv.
  pose proof (steps_settled_mono _ _ _ Hrest Hsettled) as Hsettled2.
  destruct Hstep as [i r Hi Hq|i r style0 rest Hi Hq Hne|i r rest Hi Hq
                    |i r style0 result Hi]; cbn [App.session]; try done.
  apply settle_lookup_ne. intros ->.
  apply (settled_disjoint r style Hinv Hsettled2).
  apply elem_of_app. left.
  destruct (insert_split _ _ _ App.Looping Hi) as (before & after & -> & _).
  apply awaiting_mem. auto.
Qed.

Lemma round_pending_until_settled_witness :
  match App.run (take 3 Fixtures.alternating) Fixtures.startedRound with
  | Some r =>
      App.session r !! "Modern"
      = Some (App.mkGeneratedImage App.done (Some Fixtures.imageUrl) None)
      /\ App.session r !! "Scandinavian" = Some App.pendingImage
      /\ App.session r !! "Minimalist" = Some App.pendingImage
  | None => False
  end.
Proof.
  destruct (App.run (take 3 Fixtures.alternating) Fixtures.startedRound)
    as [r|] eqn:Hrun; [|by vm_compute in Hrun].
  pose proof (run_steps _ _ _ Hrun) as Hsteps.
  pose proof (round_pending_until_settled Fixtures.midRound Fixtures.startedRound r)
    as Hpending.
  vm_compute in Hrun. injection Hrun as <-.
  split; [by vm_compute|].
  split; apply Hpending; try done; apply list_elem_of_In; cbn; tauto.
Defined.

Lemma round_outcome_is_stable_witness :
  match App.run (take 3 Fixtures.alternating) Fixtures.startedRound,
        App.run Fixtures.alternating Fixtures.startedRound with
  | Some r, Some r' => App.session r' !! "Modern" = App.session r !! "Modern"
  | _, _ => False
  end.
Proof.
  destruct (App.run (take 3 Fixtures.alternating) Fixtures.startedRound)
    as [r|] eqn:Hrun; [|by vm_compute in Hrun].
  assert (Hrest : App.run (drop 3 Fixtures.alternating) r
                  = App.run Fixtures.alternating Fixtures.startedRound).
  { rewrite <- (take_drop 3 Fixtures.alternating) at 2.
    generalize (take 3 Fixtures.alternating) (drop 3 Fixtures.alternating)
               Fixtures.startedRound Hrun.
    clear. intros s1 s2. induction s1 as [|[i result] s1 IH]; intros r0; cbn.
    - by intros [= ->].
    - destruct (App.advance i result r0); [apply IH|done]. }
  destruct (App.run Fixtures.alternating Fixtures.startedRound) as [r'|] eqn:Hfull;
    [|by vm_compute in Hfull].
  apply (round_outcome_is_stable Fixtures.midRound Fixtures.startedRound r r');
    [reflexivity|exact (run_steps _ _ _ Hrun)|exact (run_steps _ _ _ Hrest)|].
  vm_compute in Hrun. injection Hrun as <-. apply list_elem_of_In. cbn. tauto.
Defined.

Section RoundCount.

Import App.

Lemma stepsN_steps n r r' : stepsN n r r' -> steps r r'.
Proof. induction 1; [apply steps_refl|by eapply steps_step]. Qed.

Lemma step_stepsLeft r r' : step r r' -> stepsLeft r = S (stepsLeft r').
Proof.
  intros Hstep. unfold stepsLeft.
  destruct Hstep as [i r Hi Hq|i r style rest Hi Hq Hne|i r rest Hi Hq
                    |i r style result Hi];
    cbn [workers stylesQueue]; rewrite ?Hq; cbn [sum_list_with];
    try (destruct (insert_split _ _ _ Exited Hi) as (before & after & -> & ->));
    try (destruct (insert_split _ _ _ (Awaiting style) Hi)
           as (before & after & -> & ->));
    try (destruct (insert_split _ _ _ Looping Hi) as (before & after & -> & ->));
    rewrite ?weight_middle; cbn [weight nonEmpty String.eqb negb]; try lia.
  unfold nonEmpty. destruct (String.eqb_spec style "") as [|_]; [done|].
  cbn [negb]. lia.
Qed.

Lemma stepsLeft_none r :
  stepsLeft r = 0 <-> stylesQueue r = [] /\ completed r.
Proof.
  unfold stepsLeft, completed. split.
  - intros Hzero.
    assert (Hq : sum_list_with (fun style => if nonEmpty style then 2 else 1)
                   (stylesQueue r) = 0) by lia.
    assert (Hw : sum_list_with weight (workers r) = 0) by lia.
    split.
    + destruct (stylesQueue r) as [|style rest]; [done|]. cbn in Hq.
      destruct (nonEmpty style); lia.
    + clear -Hw. induction (workers r) as [|w ws IH]; [done|]. cbn in Hw.
      constructor; [destruct w; cbn in Hw; (done || lia)|apply IH; lia].
  - intros [-> Hdone]. cbn.
    induction Hdone as [|w ws -> _ IH]; [done|]. exact IH.
Qed.

Lemma stepsN_count st r0 n r :
  handleGenerateClick st = Some r0 -> stepsN n r0 r -> n + stepsLeft r = 14.
Proof.
  intros Hstart Hsteps. induction Hsteps as [r0|n r0 r2 r3 _ IH Hstep].
  - unfold handleGenerateClick in Hstart.
    destruct (uploadedImages st); [done|]. by injection Hstart as <-.
  - specialize (IH Hstart). apply step_stepsLeft in Hstep. lia.
Qed.

End RoundCount.

(** X17. The queue of a round is always a final segment of the catalogue,
    and the styles before it are exactly those whose task is settled or in
    flight: tasks are started in the order of the catalogue. *)
Theorem round_starts_in_catalogue_order
  (st : App.State) (r0 r : App.Round) :
  App.handleGenerateClick st = Some r0 ->
  App.steps r0 r ->
  exists started,
    App.STYLES = started ++ App.stylesQueue r
    /\ started ≡ₚ App.settled r ++ App.awaitingStyles (App.workers r).
Proof.
  intros Hstart Hsteps.
  destruct (round_order st r0 r Hstart Hsteps) as ((started & Hstarted) & _ & _).
  exists started. split; [done|].
  pose proof (App.inv_styles r (invariant_steps st r0 r Hstart Hsteps)) as Hperm.
  assert (Hfilter : List.filter App.nonEmpty (App.stylesQueue r) = App.stylesQueue r).
  { apply forallb_filter_id, forallb_forall. intros style Hin.
    apply STYLES_nonEmpty. rewrite Hstarted. apply elem_of_app. right.
    by apply list_elem_of_In. }
  rewrite Hfilter, Hstarted, app_assoc in Hperm.
  symmetry. by apply Permutation_app_inv_r in Hperm.
Qed.

Lemma round_starts_in_catalogue_order_witness :
  match App.run (take 3 Fixtures.alternating) Fixtures.startedRound with
  | Some r =>
      exists started,
        App.STYLES = started ++ App.stylesQueue r
        /\ started ≡ₚ App.settled r ++ App.awaitingStyles (App.workers r)
  | None => False
  end.
Proof.
  destruct (App.run (take 3 Fixtures.alternating) Fixtures.startedRound)
    as [r|] eqn:Hrun; [|by vm_compute in Hrun].
  exact (round_starts_in_catalogue_order Fixtures.midRound Fixtures.startedRound r
           eq_refl (run_steps _ _ _ Hrun)).
Defined.

(** X18. A round never adds a key to the session state: in every state the
    keys are the six styles of the catalogue. *)
Theorem round_keeps_catalogue_keys (st : App.State) (r0 r : App.Round) :
  App.handleGenerateClick st = Some r0 ->
  App.steps r0 r ->
  dom (App.session r) = list_to_set App.STYLES.
Proof.
  intros Hstart Hsteps.
  destruct (round_order st r0 r Hstart Hsteps) as (_ & _ & ->).
  apply set_eq. intros style. rewrite elem_of_dom, elem_of_list_to_set. split.
  - intros [image Himage]. destruct (decide (style ∈ App.STYLES)) as [|Hnot]; [done|].
    exfalso. revert Himage. unfold App.initialImages. cbn [foldl App.STYLES].
    rewrite !lookup_insert_ne, lookup_empty; [done|..];
      intros <-; apply Hnot, list_elem_of_In; cbn; tauto.
  - intros Hin. rewrite initialImages_pending by done. by eexists.
Qed.

Lemma round_keeps_catalogue_keys_witness :
  match App.run Fixtures.alternating Fixtures.startedRound with
  | Some r => dom (App.session r) = list_to_set App.STYLES
  | None => False
  end.
Proof.
  destruct (App.run Fixtures.alternating Fixtures.startedRound) as [r|] eqn:Hrun;
    [|by vm_compute in Hrun].
  exact (round_keeps_catalogue_keys Fixtures.midRound Fixtures.startedRound r
           eq_refl (run_steps _ _ _ Hrun)).
Defined.

(** X19. A round takes fourteen steps: an execution of [n] steps from the
    start has [n <= 14], and it has reached the state in which both
    workers have returned exactly when [n = 14]. *)
Theorem round_takes_fourteen_steps
  (st : App.State) (r0 r : App.Round) (n : nat) :
  App.handleGenerateClick st = Some r0 ->
  stepsN n r0 r ->
  n <= 14 /\ (App.completed r <-> n = 14).
Proof.
  intros Hstart Hsteps.
  pose proof (stepsN_count st r0 n r Hstart Hsteps) as Hcount.
  split; [lia|]. split.
  - intros Hdone.
    pose proof (invariant_steps st r0 r Hstart (stepsN_steps _ _ _ Hsteps)) as Hinv.
    assert (Hzero : stepsLeft r = 0).
    { apply stepsLeft_none. split; [by apply completed_queue_empty|done]. }
    lia.
  - intros ->. assert (Hzero : stepsLeft r = 0) by lia.
    by apply stepsLeft_none in Hzero as [_ Hdone].
Qed.

Lemma run_stepsN schedule r r' :
  App.run schedule r = Some r' -> stepsN (length schedule) r r'.
Proof.
  revert r r'. induction schedule as [|[i result] rest IH] using rev_ind;
    intros r r'.
  - intros [= ->]. apply stepsN_refl.
  - rewrite length_app. cbn [length]. rewrite Nat.add_1_r.
    assert (Hrun : forall s r0,
      App.run (s ++ [(i, result)]) r0
      = match App.run s r0 with
        | Some r1 => App.advance i result r1
        | None => None
        end).
    { clear. induction s as [|[j res] s IHs]; intros r0; cbn.
      - by destruct (App.advance i result r0).
      - destruct (App.advance j res r0); [apply IHs|done]. }
    rewrite Hrun. destruct (App.run rest r) as [r1|] eqn:Hrest; [|done].
    intros Hadv. eapply stepsN_step; [by apply IH|by eapply advance_step].
Qed.

Lemma round_takes_fourteen_steps_witness :
  match App.run Fixtures.alternating Fixtures.startedRound with
  | Some r => App.completed r
  | None => False
  end.
Proof.
  destruct (App.run Fixtures.alternating Fixtures.startedRound) as [r|] eqn:Hrun;
    [|by vm_compute in Hrun].
  by apply (round_takes_fourteen_steps Fixtures.midRound Fixtures.startedRound r
              (length Fixtures.alternating) eq_refl (run_stepsN _ _ _ Hrun)).
Defined.

(** ** The calls of one card *)

Lemma tryCatch_trace {A} (m : Eff A) handler t :
  (forall e t0, (handler e t0).2 = t0) -> (tryCatch m handler t).2 = (m t).2.
Proof.
  intros Hhandler. unfold tryCatch. destruct (m t) as [[a|e] t0]; [done|].
  apply Hhandler.
Qed.

Lemma bind_trace {A B} (m : Eff A) (k : A -> Eff B) t :
  (forall a t0, (k a t0).2 = t0) -> (bind m k t).2 = (m t).2.
Proof.
  intros Hk. unfold bind. destruct (m t) as [[a|e] t0]; [|done]. apply Hk.
Qed.

(** The browser service adds to the trace what [fetch] adds, if it calls
    it, and nothing else. *)
Lemma client_trace fetch imageDataUrls text t :
  (Client.generateStyleImage fetch imageDataUrls text t).2 = t
  \/ (Client.generateStyleImage fetch imageDataUrls text t).2
     = (fetch imageDataUrls text t).2.
Proof.
  unfold Client.generateStyleImage. rewrite tryCatch_trace.
  2:{ intros e t0. cbv beta zeta delta [throw].
      by repeat match goal with |- context [if ?b then _ else _] => destruct b end. }
  destruct imageDataUrls as [|url rest]; [by left|].
  destruct (negb (Js.truthy (Some text)) || Js.isBlank text); [by left|].
  destruct (negb (forallb _ (url :: rest))); [by left|].
  right. apply bind_trace. intros response t0. unfold throw, ret.
  destruct (negb (Client.ok response)); [done|].
  destruct (body response) as [data|]; [|done]. by destruct (_ || _).
Qed.

(** X20. One call of the browser service in front of the proxy, whatever
    its input and whether the proxy is reachable or not, adds to the trace
    at most one request to the proxy and at most six upstream calls. *)
Theorem service_budget
  (upstream : Upstream) (interpret : Response -> Completion string)
  (reachable : bool) (imageDataUrls : list string) (text : string) (t : Trace) :
  exists events,
    (Client.generateStyleImage
       (Client.fetchProxy reachable (Proxy.handler upstream interpret))
       imageDataUrls text t).2 = t ++ events
    /\ fetchCalls events <= 1 /\ upstreamCalls events <= 6.
Proof.
  destruct (client_trace
              (Client.fetchProxy reachable (Proxy.handler upstream interpret))
              imageDataUrls text t) as [-> | ->].
  { exists []. rewrite app_nil_r. split; [done|]. cbn. lia. }
  unfold Client.fetchProxy, bind, emit, throw.
  destruct reachable.
  - destruct (handler_answers upstream interpret
                (mkHttpRequest "POST" (Some imageDataUrls) (Some text))
                (t ++ [EFetch imageDataUrls text]))
      as (response & events & -> & _ & Hcalls & Hfetch & _).
    exists ([EFetch imageDataUrls text] ++ events). cbn [snd].
    rewrite <- app_assoc. split; [done|].
    unfold fetchCalls in *. rewrite upstreamCalls_app, List.filter_app, length_app.
    cbn. lia.
  - exists [EFetch imageDataUrls text]. split; [done|]. cbn. lia.
Qed.

(** ** Failures that are not transient, up to the card *)

Lemma retry_throws_second_nontransient upstream request t e1 e2 :
  let n := upstreamCalls t in
  upstream n request = inr e1 -> Proxy.transient e1 ->
  upstream (S n) request = inr e2 -> ~ Proxy.transient e2 ->
  Proxy.callGeminiWithRetry upstream request t =
  (Threw e2, t ++ [EUpstream request; ETimeout 1000; EUpstream request]).
Proof.
  intros n H1 T1 H2 T2. unfold Proxy.callGeminiWithRetry.
  change (N.to_nat Proxy.maxRetries) with 3. unfold Proxy.transient in *.
  rewrite retryLoop_step. fold n. rewrite H1, T1. cbn [andb].
  change (1 <? Proxy.maxRetries)%N with true. cbn match.
  rewrite retryLoop_step, upstreamCalls_retry_step. fold n. rewrite H2.
  destruct (Proxy.isInternalError (Js.messageOrJson e2)); [done|].
  cbn [andb]. by rewrite <- !app_assoc.
Qed.

(** The text that [generateStyleImage] puts before the message of an
    unrecoverable failure holds none of the markers of the browser
    service. *)
Lemma includes_after_details_prefix m :
  Js.includes ("The AI model failed to generate an image. Details: " +:+ m)
              "IMAGE_GENERATION_NOT_SUPPORTED"
  = Js.includes m "IMAGE_GENERATION_NOT_SUPPORTED"
  /\ Js.includes ("The AI model failed to generate an image. Details: " +:+ m)
                 "Failed to fetch"
     = Js.includes m "Failed to fetch"
  /\ Js.includes ("The AI model failed to generate an image. Details: " +:+ m)
                 "NetworkError"
     = Js.includes m "NetworkError"
  /\ Js.includes ("The AI model failed to generate an image. Details: " +:+ m)
                 "Server responded with status: 5"
     = Js.includes m "Server responded with status: 5".
Proof.
  rewrite !append_cons, append_nil_l. repeat split; cbn; by destruct m.
Qed.

Lemma stylePrompt_not_blank style : Js.isBlank (App.stylePrompt style) = false.
Proof. unfold App.stylePrompt. by rewrite append_cons. Qed.

(** The browser service in front of a reachable proxy, when the generation
    of the proxy throws an [Error] whose message is not empty and holds
    none of the markers of the browser service. *)
Lemma reachable_proxy_failure upstream interpret imageDataUrls text message t t' :
  imageDataUrls <> [] ->
  Js.isBlank text = false ->
  forallb (fun url => Js.startsWith url "data:image/") imageDataUrls = true ->
  Proxy.generateStyleImage upstream interpret imageDataUrls text
    (t ++ [EFetch imageDataUrls text]) = (Threw (Js.Error message), t') ->
  message <> "" ->
  Js.includes message "IMAGE_GENERATION_NOT_SUPPORTED" = false ->
  Js.includes message "Failed to fetch" = false ->
  Js.includes message "NetworkError" = false ->
  Js.includes message "Server responded with status: 5" = false ->
  Client.generateStyleImage
    (Client.fetchProxy true (Proxy.handler upstream interpret))
    imageDataUrls text t
  = (Threw (Js.Error ("Failed to generate image: Image generation failed: "
                      +:+ message)), t').
Proof.
  intros Hne Hblank Hprefix Hgen Hmessage H1 H2 H3 H4.
  assert (HForall : Forall (fun url => Js.startsWith url "data:image/" = true)
                           imageDataUrls).
  { apply List.Forall_forall. intros url Hin.
    exact (proj1 (forallb_forall _ _) Hprefix url Hin). }
  unfold Client.generateStyleImage, tryCatch, bind.
  destruct imageDataUrls as [|url rest] eqn:Himgs; [done|].
  rewrite Hblank, (not_blank_truthy _ Hblank), Hprefix.
  cbn [negb orb]. unfold Client.fetchProxy, bind, emit.
  rewrite (handler_valid_post _ _ _ _ _ Hne Hblank HForall), Hgen.
  cbn [Client.ok statusCode N.leb N.compare Pos.compare Pos.compare_cont andb negb
       body default id json_message json_error reportedMessage].
  assert (Hor : Js.or (Js.or (Some message) (Some "Image generation failed"))
                  (Some ("Server responded with status: " +:+ pretty 500%N))
                = Some message) by (by destruct message).
  rewrite Hor. cbv beta zeta delta [throw]. cbn [Js.tmpl Js.messageOrString].
  destruct (includes_after_failed_prefix message) as (-> & -> & -> & ->).
  by rewrite H1, H2, H3, H4.
Qed.

(** C5, at the inputs where it fails. First, the upstream client fails the
    first call with an error that is not transient, but whose message holds
    the text by which [generateStyleImage] recognises a response without
    image: the wrapper does not retry, and yet the fallback prompt is sent
    and its image is returned. Second, the upstream client fails the first
    call with an error that is not transient, does not hold that text, but
    holds [NetworkError]: the wrapper does not retry and no fallback is
    sent, but the task of the style ends with the fixed network message of
    the browser service, which does not carry the message of the error. *)
Lemma nontransient_failure_deviations :
  (Fixtures.misleading 0 Fixtures.modernRequest = inr (Js.Error Proxy.noImageMarker)
   /\ ~ Proxy.transient (Js.Error Proxy.noImageMarker)
   /\ Vercel.generateStyleImage Fixtures.misleading [Fixtures.photo]
        (App.stylePrompt "Modern") []
      = (Returned Fixtures.imageUrl,
         [EUpstream Fixtures.modernRequest;
          EUpstream Fixtures.modernFallbackRequest]))
  /\ (unreachable 0 Fixtures.modernRequest = inr unreachableError
      /\ ~ Proxy.transient unreachableError
      /\ Proxy.isNoImageError (Js.messageOrJson unreachableError) = false
      /\ (let task :=
            processStyle
              (Client.generateStyleImage
                 (Client.fetchProxy true (Vercel.handler unreachable)))
              [Fixtures.photo] "Modern" App.initialImages [] in
          task.1 !! "Modern"
          = Some (App.mkGeneratedImage App.error None (Some networkErrorText))
          /\ task.2 = [EFetch [Fixtures.photo] (App.stylePrompt "Modern");
                       EUpstream Fixtures.modernRequest])
      /\ Js.includes networkErrorText (Js.messageOrJson unreachableError) = false).
Proof.
  split; [split; [reflexivity|split; [by vm_compute|reflexivity]]|].
  split; [reflexivity|]. split; [by vm_compute|]. split; [reflexivity|].
  split; [by vm_compute|reflexivity].
Qed.

(** C5, amended. A failure of an upstream call that is not transient, on
    the first attempt or on the second, is thrown by [callGeminiWithRetry]
    at once, with no further call; so is the failure of the third call,
    whatever it is. When the message of a first, non-transient failure does
    not hold the text that marks a response without image,
    [generateStyleImage] (of either proxy) sends no fallback prompt: it
    throws the failure for unrecoverable errors, whose message ends with
    the message of the upstream failure, after that single call. When that
    message holds none of the markers of the browser service either, the
    task of a style, through the browser service and a reachable proxy,
    ends after one request to the proxy and that single upstream call with
    an error entry whose text ends with the message of the upstream
    failure. *)
Theorem nontransient_failure_propagates
  (upstream : Upstream) (interpret : Response -> Completion string)
  (imageDataUrls : list string) (prompt : string) (imageParts : list Part)
  (t : Trace) :
  let request := imageParts ++ [TextPart prompt] in
  let n := upstreamCalls t in
  Proxy.imagePartsOf imageDataUrls = Returned imageParts ->
  (forall e, upstream n request = inr e -> ~ Proxy.transient e ->
     Proxy.callGeminiWithRetry upstream request t = (Threw e, t ++ [EUpstream request])
     /\ (Proxy.isNoImageError (Js.messageOrJson e) = false ->
         Proxy.generateStyleImage upstream interpret imageDataUrls prompt t
         = (Threw (Js.Error ("The AI model failed to generate an image. Details: "
                             +:+ Js.messageOrJson e)),
            t ++ [EUpstream request])))
  /\ (forall e1 e2,
        upstream n request = inr e1 -> Proxy.transient e1 ->
        upstream (S n) request = inr e2 -> ~ Proxy.transient e2 ->
        Proxy.callGeminiWithRetry upstream request t
        = (Threw e2,
           t ++ [EUpstream request; ETimeout 1000; EUpstream request]))
  /\ (forall e1 e2 e3,
        upstream n request = inr e1 -> Proxy.transient e1 ->
        upstream (S n) request = inr e2 -> Proxy.transient e2 ->
        upstream (S (S n)) request = inr e3 ->
        Proxy.callGeminiWithRetry upstream request t
        = (Threw e3,
           t ++ [EUpstream request; ETimeout 1000; EUpstream request;
                 ETimeout 2000; EUpstream request]))
  /\ (forall style session e,
        prompt = App.stylePrompt style ->
        imageDataUrls <> [] ->
        upstream n request = inr e -> ~ Proxy.transient e ->
        Proxy.isNoImageError (Js.messageOrJson e) = false ->
        Js.includes (Js.messageOrJson e) "IMAGE_GENERATION_NOT_SUPPORTED" = false ->
        Js.includes (Js.messageOrJson e) "Failed to fetch" = false ->
        Js.includes (Js.messageOrJson e) "NetworkError" = false ->
        Js.includes (Js.messageOrJson e) "Server responded with status: 5" = false ->
        processStyle
          (Client.generateStyleImage
             (Client.fetchProxy true (Proxy.handler upstream interpret)))
          imageDataUrls style session t
        = (<[style := App.mkGeneratedImage App.error None
                        (Some ("Failed to generate image: Image generation failed: The AI model failed to generate an image. Details: "
                               +:+ Js.messageOrJson e))]> session,
           t ++ [EFetch imageDataUrls prompt; EUpstream request])).
Proof.
  intros request n Hparts. split; [|split; [|split]].
  - intros e Hcall Hnt.
    pose proof (retry_throws_nontransient _ _ _ _ Hcall Hnt) as Hretry.
    split; [exact Hretry|]. intros Hno.
    exact (generate_call_failed upstream interpret imageDataUrls prompt imageParts
             Hparts t e _ Hretry Hno).
  - intros e1 e2. apply retry_throws_second_nontransient.
  - intros e1 e2 e3. apply retry_throws_third_failure.
  - intros style session e Hprompt Hne Hcall Hnt Hno H1 H2 H3 H4.
    assert (Hn : upstreamCalls (t ++ [EFetch imageDataUrls prompt]) = n).
    { rewrite upstreamCalls_app. cbn. fold n. lia. }
    assert (Hcall' : upstream (upstreamCalls (t ++ [EFetch imageDataUrls prompt]))
                       request = inr e) by (by rewrite Hn).
    pose proof (retry_throws_nontransient _ _ _ _ Hcall' Hnt) as Hretry.
    pose proof (generate_call_failed upstream interpret imageDataUrls prompt
                  imageParts Hparts _ e _ Hretry Hno) as Hgen.
    destruct (includes_after_details_prefix (Js.messageOrJson e))
      as (Hi1 & Hi2 & Hi3 & Hi4).
    assert (Hblank : Js.isBlank prompt = false)
      by (rewrite Hprompt; apply stylePrompt_not_blank).
    pose proof (reachable_proxy_failure upstream interpret imageDataUrls prompt
                  _ t _ Hne Hblank (imagePartsOf_prefix _ _ Hparts) Hgen) as Hclient.
    unfold processStyle. rewrite <- Hprompt, Hclient.
    + cbn [App.settle]. by rewrite <- app_assoc.
    + by rewrite append_cons.
    + by rewrite Hi1.
    + by rewrite Hi2.
    + by rewrite Hi3.
    + by rewrite Hi4.
Qed.

Lemma nontransient_failure_propagates_witness :
  Proxy.generateStyleImage Fixtures.exhausted Vercel.processGeminiResponse
    [Fixtures.photo] (App.stylePrompt "Modern") []
  = (Threw (Js.Error
       "The AI model failed to generate an image. Details: got status: 429 RESOURCE_EXHAUSTED. Quota exceeded."),
     [EUpstream Fixtures.modernRequest])
  /\ Proxy.callGeminiWithRetry flakyThenExhausted Fixtures.modernRequest []
     = (Threw Fixtures.quotaError,
        [EUpstream Fixtures.modernRequest; ETimeout 1000;
         EUpstream Fixtures.modernRequest])
  /\ processStyle
       (Client.generateStyleImage
          (Client.fetchProxy true (Vercel.handler Fixtures.exhausted)))
       [Fixtures.photo] "Modern" App.initialImages []
     = (<["Modern" := App.mkGeneratedImage App.error None
            (Some ("Failed to generate image: Image generation failed: The AI model failed to generate an image. Details: "
                   +:+ Js.messageOrJson Fixtures.quotaError))]> App.initialImages,
        [] ++ [EFetch [Fixtures.photo] (App.stylePrompt "Modern");
               EUpstream Fixtures.modernRequest]).
Proof.
  destruct (nontransient_failure_propagates Fixtures.exhausted
              Vercel.processGeminiResponse [Fixtures.photo]
              (App.stylePrompt "Modern") [Fixtures.photoPart] [] eq_refl)
    as (Hfirst & _ & _ & Htask).
  destruct (nontransient_failure_propagates flakyThenExhausted
              Vercel.processGeminiResponse [Fixtures.photo]
              (App.stylePrompt "Modern") [Fixtures.photoPart] [] eq_refl)
    as (_ & Hsecond & _ & _).
  assert (Hnt : ~ Proxy.transient Fixtures.quotaError) by (by vm_compute).
  split; [|split].
  - destruct (Hfirst Fixtures.quotaError eq_refl Hnt) as [_ Hgen].
    exact (Hgen eq_refl).
  - exact (Hsecond Fixtures.internalError Fixtures.quotaError eq_refl eq_refl
             eq_refl Hnt).
  - apply (Htask "Modern" App.initialImages Fixtures.quotaError);
      (reflexivity || discriminate || exact Hnt).
Defined.
